(** * TaskVoloners: the event roster and attendance routes of the API server

    A shallow embedding of the Express handlers of the server (the
    [=== JavaScript ===] part of [src/App.js]): the bearer-token middleware,
    [POST /api/events], [POST /api/roles/:roleId/signup],
    [GET /api/volunteer/profile], [GET /api/events/:eventId/volunteers] and
    [PATCH /api/attendance/:recordId].

    The relational store is modelled as the bags of rows of the tables the
    handlers name in their SQL text.  The table declarations and the storage
    engine are not part of the sources: whether the store rejects a
    statement (a constraint of the schema, a connection fault) is a parameter
    of every handler, the [oracle], and the collation under which the store
    orders strings is a parameter of the roster query. *)

From Stdlib Require Import List ZArith Bool Ascii String Lia Permutation Sorted.
Import ListNotations.
Local Open Scope string_scope.
Local Open Scope list_scope.
Local Open Scope Z_scope.

(** ** Rows *)

(** Modelled from the spec: the table declarations are not part of the
    sources.  The columns are the ones the SQL text of the handlers names;
    their types follow the data model of the specification: surrogate keys
    and instants are integers, the attended flag is a boolean whose default
    is false. *)

Record volunteer := {
  v_id : Z;
  v_name : string;
  v_email : string;
  v_password_hash : string;
  v_interests : string
}.

Record event := {
  e_id : Z;
  e_organizer_id : Z;
  e_title : string;
  e_description : string;
  e_date : Z;
  e_location : string
}.

Record role := {
  r_id : Z;
  r_event_id : Z;
  r_name : string;
  r_description : string;
  r_required_volunteers : Z
}.

Record volunteer_role := {
  vr_id : Z;
  vr_volunteer_id : Z;
  vr_role_id : Z;
  vr_attended : bool
}.

(** The store: one bag of rows per table, and the generators of the
    surrogate keys. *)
Record db := {
  volunteers : list volunteer;
  events : list event;
  roles : list role;
  volunteer_roles : list volunteer_role;
  events_id_seq : Z;
  roles_id_seq : Z;
  volunteer_roles_id_seq : Z
}.

Definition empty_db : db :=
  {| volunteers := []; events := []; roles := []; volunteer_roles := [];
     events_id_seq := 1; roles_id_seq := 1; volunteer_roles_id_seq := 1 |}.

(** ** Requests and responses *)

(** The payload [jwt.verify] hands to the handlers.  [userType] is the
    string that was signed; the login route signs whatever the client
    sent. *)
Record user := {
  userId : Z;
  userType : string
}.

Record role_body := {
  rb_name : string;
  rb_description : string;
  requiredVolunteers : Z
}.

(** Body of [POST /api/events].  [req_roles] is [None] when the body carries
    nothing a [for ... of] can iterate.  An element of the sequence is
    [None] when it is [null] or [undefined], on which reading [role.name]
    throws, and otherwise an object that carries the three fields. *)
Record event_body := {
  req_title : string;
  req_description : string;
  req_date : Z;
  req_location : string;
  req_roles : option (list (option role_body))
}.

(** A row of the two profile queries: [e.*], [r.name as role_name],
    [vr.attended], and [vr.role_id], which only the upcoming query
    selects. *)
Record profile_row := {
  pr_event : event;
  pr_role_name : string;
  pr_role_id : option Z;
  pr_attended : bool
}.

(** A row of the roster query. *)
Record roster_row := {
  ro_id : Z;
  ro_name : string;
  ro_email : string;
  ro_role_name : string;
  ro_attended : bool;
  ro_record_id : Z
}.

Inductive body :=
| NoBody
| ErrorBody (error : string)
| MessageBody (message : string)
| EventBody (e : event)
| ProfileBody (upcoming past : list profile_row) (totalEvents totalHours : nat)
| RosterBody (rows : list roster_row).

Record response := {
  status : nat;
  payload : body
}.

Definition sendStatus (code : nat) : response :=
  {| status := code; payload := NoBody |}.

Definition json (code : nat) (b : body) : response :=
  {| status := code; payload := b |}.

(** ** The query interface *)

(** [rej k] tells whether the store rejects the [k]-th statement that one
    run of a handler issues (counted from 0). *)
Definition oracle := nat -> bool.

Definition accepting : oracle := fun _ => false.

(** A statement either returns with the store it leaves, or throws. *)
Inductive outcome (A : Type) :=
| Returned (a : A) (st : db)
| Thrown (st : db).
Arguments Returned {A} a st.
Arguments Thrown {A} st.

Definition Q (A : Type) := db -> outcome A.

Definition ret {A} (a : A) : Q A := fun st => Returned a st.

Definition throw {A} : Q A := fun st => Thrown st.

Definition bind {A B} (c : Q A) (k : A -> Q B) : Q B :=
  fun st =>
    match c st with
    | Returned a st' => k a st'
    | Thrown st' => Thrown st'
    end.

Notation "x <- c ;; k" := (bind c (fun x => k))
  (at level 61, c at next level, right associativity).
Notation "c ;;; k" := (bind c (fun _ => k))
  (at level 61, right associativity).

(** [query rej k run]: statement number [k]; a rejected statement leaves
    the store as it was.  A store that draws the key of a row before it
    rejects the INSERT would differ in the key generator alone, which no
    row and no answer of the run shows. *)
Definition query {A} (rej : oracle) (k : nat) (run : db -> A * db) : Q A :=
  fun st =>
    if rej k then Thrown st
    else let (a, st') := run st in Returned a st'.

(** ROLLBACK: the rows go back to what they were at BEGIN; key generators
    are not transactional and keep their value. *)
Definition rollback (snapshot cur : db) : db :=
  {| volunteers := volunteers snapshot;
     events := events snapshot;
     roles := roles snapshot;
     volunteer_roles := volunteer_roles snapshot;
     events_id_seq := events_id_seq cur;
     roles_id_seq := roles_id_seq cur;
     volunteer_roles_id_seq := volunteer_roles_id_seq cur |}.

(** ORDER BY, as a stable insertion sort on a boolean order. *)
Section OrderBy.
Context {A : Type} (le : A -> A -> bool).

Fixpoint place (x : A) (l : list A) : list A :=
  match l with
  | [] => [x]
  | y :: l' => if le x y then x :: l else y :: place x l'
  end.

Fixpoint order_by (l : list A) : list A :=
  match l with
  | [] => []
  | x :: l' => place x (order_by l')
  end.
End OrderBy.

(** ** The bearer-token middleware *)

Section Authenticate.
(** [jwt.verify] belongs to the identity provider: a token either decodes
    to a payload or is refused. *)
Variable jwt_verify : string -> option user.

(** [s.split(' ')] on the characters of a header. *)
Fixpoint split_space (cur : string) (s : string) : list string :=
  match s with
  | EmptyString => [cur]
  | String c s' =>
      if Ascii.eqb c " "%char then cur :: split_space EmptyString s'
      else split_space (String.append cur (String c EmptyString)) s'
  end.

(** [authHeader && authHeader.split(' ')[1]], then [!token]: a missing or
    empty header, or one with no second word, or an empty one, has no
    token. *)
Definition bearer (authHeader : option string) : option string :=
  match authHeader with
  | None => None
  | Some h =>
      match nth_error (split_space EmptyString h) 1 with
      | Some tok => if String.eqb tok EmptyString then None else Some tok
      | None => None
      end
  end.

Definition authenticateToken (authHeader : option string)
    (next : user -> db -> response * db) (st : db) : response * db :=
  match bearer authHeader with
  | None => (sendStatus 401, st)
  | Some token =>
      match jwt_verify token with
      | None => (sendStatus 403, st)
      | Some u => next u st
      end
  end.
End Authenticate.

(** ** POST /api/events *)

Definition insert_event (organizer : Z) (b : event_body) (st : db) : event * db :=
  let e := {| e_id := events_id_seq st;
              e_organizer_id := organizer;
              e_title := req_title b;
              e_description := req_description b;
              e_date := req_date b;
              e_location := req_location b |} in
  (e, {| volunteers := volunteers st;
         events := events st ++ [e];
         roles := roles st;
         volunteer_roles := volunteer_roles st;
         events_id_seq := events_id_seq st + 1;
         roles_id_seq := roles_id_seq st;
         volunteer_roles_id_seq := volunteer_roles_id_seq st |}).

Definition role_of_body (rid eid : Z) (rb : role_body) : role :=
  {| r_id := rid;
     r_event_id := eid;
     r_name := rb_name rb;
     r_description := rb_description rb;
     r_required_volunteers := requiredVolunteers rb |}.

Definition insert_role (eid : Z) (rb : role_body) (st : db) : unit * db :=
  (tt, {| volunteers := volunteers st;
          events := events st;
          roles := roles st ++ [role_of_body (roles_id_seq st) eid rb];
          volunteer_roles := volunteer_roles st;
          events_id_seq := events_id_seq st;
          roles_id_seq := roles_id_seq st + 1;
          volunteer_roles_id_seq := volunteer_roles_id_seq st |}).

Definition no_effect (st : db) : unit * db := (tt, st).

(** [for (const role of roles) await client.query('INSERT INTO roles ...')];
    the first insert is statement [k].  The parameters [role.name],
    [role.description] and [role.requiredVolunteers] are read before the
    statement is issued: on a [null] element the read throws and no
    statement is issued. *)
Fixpoint insert_roles (rej : oracle) (k : nat) (eid : Z)
    (rs : list (option role_body)) : Q unit :=
  match rs with
  | [] => ret tt
  | None :: _ => throw
  | Some rb :: rs' =>
      query rej k (insert_role eid rb) ;;;
      insert_roles rej (S k) eid rs'
  end.

(** The [try] block: BEGIN is statement 0, the event insert statement 1,
    the role inserts statements 2.., COMMIT the one after them.  The client
    is taken from the pool before the [try]; the model starts with the
    client in hand. *)
Definition createEvent_try (rej : oracle) (u : user) (b : event_body) : Q event :=
  query rej 0 no_effect ;;;
  newEvent <- query rej 1 (insert_event (userId u) b) ;;
  match req_roles b with
  | None => throw
  | Some rs =>
      insert_roles rej 2 (e_id newEvent) rs ;;;
      query rej (2 + List.length rs) no_effect ;;;
      ret newEvent
  end.

Definition createEvent (rej : oracle) (u : user) (b : event_body) (st : db)
    : response * db :=
  if negb (String.eqb (userType u) "org") then (sendStatus 403, st)
  else
    match createEvent_try rej u b st with
    | Returned newEvent st' => (json 201 (EventBody newEvent), st')
    | Thrown st' =>
        (json 500 (ErrorBody "Failed to create event"), rollback st st')
    end.

(** ** Reading the store *)

(** A SELECT reads and leaves the store as it is. *)
Definition select {A} (rows : db -> list A) (st : db) : list A * db :=
  (rows st, st).

(** [FROM l JOIN r ON on], as nested loops. *)
Definition join {A B} (on : A -> B -> bool) (l : list A) (r : list B)
    : list (A * B) :=
  flat_map (fun a => map (pair a) (filter (on a) r)) l.

(** ** POST /api/roles/:roleId/signup *)

(** [SELECT * FROM volunteer_roles WHERE volunteer_id = $1 AND role_id = $2] *)
Definition existing_signup (vid rid : Z) (st : db) : list volunteer_role :=
  filter (fun vr => (vr_volunteer_id vr =? vid) && (vr_role_id vr =? rid))
         (volunteer_roles st).

(** [INSERT INTO volunteer_roles (volunteer_id, role_id) VALUES ($1, $2)];
    the key comes from the generator and the attended flag takes its
    default, false. *)
Definition insert_volunteer_role (vid rid : Z) (st : db) : unit * db :=
  (tt, {| volunteers := volunteers st;
          events := events st;
          roles := roles st;
          volunteer_roles :=
            volunteer_roles st ++
            [{| vr_id := volunteer_roles_id_seq st;
                vr_volunteer_id := vid;
                vr_role_id := rid;
                vr_attended := false |}];
          events_id_seq := events_id_seq st;
          roles_id_seq := roles_id_seq st;
          volunteer_roles_id_seq := volunteer_roles_id_seq st + 1 |}).

Definition already_signed_up : response :=
  json 400 (ErrorBody "Already signed up for this role").

Definition signed_up : response :=
  json 201 (MessageBody "Successfully signed up for role").

Definition signup_failed : response :=
  json 500 (ErrorBody "Failed to sign up for role").

Definition signup_try (rej : oracle) (u : user) (roleId : Z) : Q response :=
  existingSignup <- query rej 0 (select (existing_signup (userId u) roleId)) ;;
  if (0 <? List.length existingSignup)%nat then ret already_signed_up
  else
    query rej 1 (insert_volunteer_role (userId u) roleId) ;;;
    ret signed_up.

(** The handler run on its own, from its first statement to its response. *)
Definition signup (rej : oracle) (u : user) (roleId : Z) (st : db)
    : response * db :=
  if negb (String.eqb (userType u) "volunteer") then (sendStatus 403, st)
  else
    match signup_try rej u roleId st with
    | Returned r st' => (r, st')
    | Thrown st' => (signup_failed, st')
    end.

(** *** Requests in flight

    Each [await pool.query] hands control back to the event loop: the
    statements of the requests in flight reach the store in any order that
    keeps each request's own order.  A request is at its first statement
    ([Arrived]), between its SELECT and its INSERT ([Checked]), or has
    answered. *)
Inductive signup_task :=
| Arrived (rej : oracle) (u : user) (roleId : Z)
| Checked (rej : oracle) (u : user) (roleId : Z)
| Responded (r : response).

(** One statement of one request. *)
Definition signup_step (t : signup_task) (st : db) : signup_task * db :=
  match t with
  | Arrived rej u roleId =>
      if negb (String.eqb (userType u) "volunteer")
      then (Responded (sendStatus 403), st)
      else
        match query rej 0 (select (existing_signup (userId u) roleId)) st with
        | Returned existingSignup st' =>
            if (0 <? List.length existingSignup)%nat
            then (Responded already_signed_up, st')
            else (Checked rej u roleId, st')
        | Thrown st' => (Responded signup_failed, st')
        end
  | Checked rej u roleId =>
      match query rej 1 (insert_volunteer_role (userId u) roleId) st with
      | Returned _ st' => (Responded signed_up, st')
      | Thrown st' => (Responded signup_failed, st')
      end
  | Responded r => (t, st)
  end.

(** Replace the [i]-th task. *)
Fixpoint set_task (i : nat) (t : signup_task) (ts : list signup_task)
    : list signup_task :=
  match ts, i with
  | [], _ => []
  | _ :: ts', O => t :: ts'
  | t0 :: ts', S i' => t0 :: set_task i' t ts'
  end.

(** A schedule names, statement after statement, the request whose next
    statement reaches the store. *)
Fixpoint run_schedule (sched : list nat) (ts : list signup_task) (st : db)
    : list signup_task * db :=
  match sched with
  | [] => (ts, st)
  | i :: sched' =>
      match nth_error ts i with
      | Some t =>
          let (t', st') := signup_step t st in
          run_schedule sched' (set_task i t' ts) st'
      | None => run_schedule sched' ts st
      end
  end.

Definition answer (t : signup_task) : option response :=
  match t with
  | Responded r => Some r
  | _ => None
  end.

(** ** GET /api/volunteer/profile *)

Definition assignment := (event * role * volunteer_role)%type.

Definition a_event (t : assignment) : event := fst (fst t).
Definition a_role (t : assignment) : role := snd (fst t).
Definition a_claim (t : assignment) : volunteer_role := snd t.

(** [FROM events e JOIN roles r ON r.event_id = e.id
     JOIN volunteer_roles vr ON vr.role_id = r.id] *)
Definition events_roles_claims (st : db) : list assignment :=
  join (fun er vr => vr_role_id vr =? r_id (snd er))
       (join (fun e r => r_event_id r =? e_id e) (events st) (roles st))
       (volunteer_roles st).

Definition date_asc (a b : assignment) : bool :=
  e_date (a_event a) <=? e_date (a_event b).

Definition date_desc (a b : assignment) : bool :=
  e_date (a_event b) <=? e_date (a_event a).

Definition upcoming_row (t : assignment) : profile_row :=
  {| pr_event := a_event t;
     pr_role_name := r_name (a_role t);
     pr_role_id := Some (vr_role_id (a_claim t));
     pr_attended := vr_attended (a_claim t) |}.

Definition past_row (t : assignment) : profile_row :=
  {| pr_event := a_event t;
     pr_role_name := r_name (a_role t);
     pr_role_id := None;
     pr_attended := vr_attended (a_claim t) |}.

(** [WHERE vr.volunteer_id = $1 AND e.date > NOW() ORDER BY e.date ASC] *)
Definition upcoming_events (now vid : Z) (st : db) : list profile_row :=
  map upcoming_row
    (order_by date_asc
       (filter (fun t => (vr_volunteer_id (a_claim t) =? vid)
                         && (now <? e_date (a_event t)))
               (events_roles_claims st))).

(** [WHERE vr.volunteer_id = $1 AND e.date <= NOW() ORDER BY e.date DESC] *)
Definition past_events (now vid : Z) (st : db) : list profile_row :=
  map past_row
    (order_by date_desc
       (filter (fun t => (vr_volunteer_id (a_claim t) =? vid)
                         && (e_date (a_event t) <=? now))
               (events_roles_claims st))).

(** [clock k] is the instant NOW() denotes in statement [k] of the run: each
    [pool.query] is a statement of its own, with its own instant. *)
Definition clock := nat -> Z.

Definition volunteerProfile_try (rej : oracle) (now : clock) (u : user)
    : Q response :=
  upcomingEvents <- query rej 0 (select (upcoming_events (now 0%nat) (userId u))) ;;
  pastEvents <- query rej 1 (select (past_events (now 1%nat) (userId u))) ;;
  let totalEventsAttended := List.length (filter pr_attended pastEvents) in
  let totalHours := (totalEventsAttended * 3)%nat in
  ret (json 200 (ProfileBody upcomingEvents pastEvents
                             totalEventsAttended totalHours)).

Definition volunteerProfile (rej : oracle) (now : clock) (u : user) (st : db)
    : response * db :=
  if negb (String.eqb (userType u) "volunteer") then (sendStatus 403, st)
  else
    match volunteerProfile_try rej now u st with
    | Returned r st' => (r, st')
    | Thrown st' => (json 500 (ErrorBody "Failed to fetch profile data"), st')
    end.

(** ** GET /api/events/:eventId/volunteers *)

(** [SELECT organizer_id FROM events WHERE id = $1] *)
Definition event_check (eventId : Z) (st : db) : list Z :=
  map e_organizer_id (filter (fun e => e_id e =? eventId) (events st)).

Definition enrolment := (volunteer * volunteer_role * role)%type.

(** How the store compares two strings in an ORDER BY: its collation, which
    is not part of the sources. *)
Definition collation := string -> string -> comparison.

(** [ORDER BY r.name, v.name] under the collation [collate]. *)
Definition role_then_name (collate : collation) (a b : enrolment) : bool :=
  match collate (r_name (snd a)) (r_name (snd b)) with
  | Lt => true
  | Eq =>
      match collate (v_name (fst (fst a))) (v_name (fst (fst b))) with
      | Gt => false
      | _ => true
      end
  | Gt => false
  end.

Definition roster_row_of (t : enrolment) : roster_row :=
  {| ro_id := v_id (fst (fst t));
     ro_name := v_name (fst (fst t));
     ro_email := v_email (fst (fst t));
     ro_role_name := r_name (snd t);
     ro_attended := vr_attended (snd (fst t));
     ro_record_id := vr_id (snd (fst t)) |}.

(** [FROM volunteers v JOIN volunteer_roles vr ON v.id = vr.volunteer_id
     JOIN roles r ON vr.role_id = r.id WHERE r.event_id = $1
     ORDER BY r.name, v.name] *)
Definition roster (collate : collation) (eventId : Z) (st : db)
    : list roster_row :=
  map roster_row_of
    (order_by (role_then_name collate)
       (filter (fun t => r_event_id (snd t) =? eventId)
          (join (fun vvr r => vr_role_id (snd vvr) =? r_id r)
             (join (fun v vr => v_id v =? vr_volunteer_id vr)
                   (volunteers st) (volunteer_roles st))
             (roles st)))).

Definition eventVolunteers_try (collate : collation) (rej : oracle) (u : user)
    (eventId : Z)
    : Q response :=
  eventCheck <- query rej 0 (select (event_check eventId)) ;;
  match eventCheck with
  | [] => ret (sendStatus 403)
  | organizer_id :: _ =>
      if negb (organizer_id =? userId u) then ret (sendStatus 403)
      else
        result <- query rej 1 (select (roster collate eventId)) ;;
        ret (json 200 (RosterBody result))
  end.

Definition eventVolunteers (collate : collation) (rej : oracle) (u : user)
    (eventId : Z) (st : db)
    : response * db :=
  match eventVolunteers_try collate rej u eventId st with
  | Returned r st' => (r, st')
  | Thrown st' => (json 500 (ErrorBody "Failed to fetch volunteers"), st')
  end.

(** ** PATCH /api/attendance/:recordId *)

(** [SELECT e.organizer_id FROM volunteer_roles vr
     JOIN roles r ON vr.role_id = r.id JOIN events e ON r.event_id = e.id
     WHERE vr.id = $1] *)
Definition record_check (recordId : Z) (st : db) : list Z :=
  map (fun t => e_organizer_id (snd t))
    (filter (fun t => vr_id (fst (fst t)) =? recordId)
       (join (fun vrr e => r_event_id (snd vrr) =? e_id e)
          (join (fun vr r => vr_role_id vr =? r_id r)
                (volunteer_roles st) (roles st))
          (events st))).

Definition set_attended (attended : bool) (vr : volunteer_role) : volunteer_role :=
  {| vr_id := vr_id vr;
     vr_volunteer_id := vr_volunteer_id vr;
     vr_role_id := vr_role_id vr;
     vr_attended := attended |}.

(** [UPDATE volunteer_roles SET attended = $1 WHERE id = $2].  The row is
    rewritten where it stands in the list: a table is a bag of rows, and the
    order of the list is the model's own. *)
Definition update_attended (attended : bool) (recordId : Z) (st : db) : unit * db :=
  (tt, {| volunteers := volunteers st;
          events := events st;
          roles := roles st;
          volunteer_roles :=
            map (fun vr => if vr_id vr =? recordId
                           then set_attended attended vr else vr)
                (volunteer_roles st);
          events_id_seq := events_id_seq st;
          roles_id_seq := roles_id_seq st;
          volunteer_roles_id_seq := volunteer_roles_id_seq st |}).

Definition attendance_updated : response :=
  json 200 (MessageBody "Attendance updated successfully").

Definition setAttendance_try (rej : oracle) (u : user) (recordId : Z)
    (attended : bool) : Q response :=
  recordCheck <- query rej 0 (select (record_check recordId)) ;;
  match recordCheck with
  | [] => ret (sendStatus 403)
  | organizer_id :: _ =>
      if negb (organizer_id =? userId u) then ret (sendStatus 403)
      else
        query rej 1 (update_attended attended recordId) ;;;
        ret attendance_updated
  end.

Definition setAttendance (rej : oracle) (u : user) (recordId : Z)
    (attended : bool) (st : db) : response * db :=
  match setAttendance_try rej u recordId attended st with
  | Returned r st' => (r, st')
  | Thrown st' => (json 500 (ErrorBody "Failed to update attendance"), st')
  end.

(** The routes, behind the middleware. *)
Section Routes.
Variable jwt_verify : string -> option user.

Definition post_events rej (authHeader : option string) (b : event_body) :=
  authenticateToken jwt_verify authHeader (fun u => createEvent rej u b).

Definition post_signup rej (authHeader : option string) (roleId : Z) :=
  authenticateToken jwt_verify authHeader (fun u => signup rej u roleId).

Definition get_profile rej now (authHeader : option string) :=
  authenticateToken jwt_verify authHeader (fun u => volunteerProfile rej now u).

Definition get_event_volunteers collate rej (authHeader : option string)
    (eventId : Z) :=
  authenticateToken jwt_verify authHeader
    (fun u => eventVolunteers collate rej u eventId).

Definition patch_attendance rej (authHeader : option string) (recordId : Z)
    (attended : bool) :=
  authenticateToken jwt_verify authHeader
    (fun u => setAttendance rej u recordId attended).
End Routes.

(** * The account routes and the public event routes *)

(** ** Accounts *)

(** Modelled from the spec: the declaration of the [organizations] table is
    not part of the sources.  The columns are the ones the INSERT of the
    registration route names. *)
Record organization := {
  o_id : Z;
  o_name : string;
  o_email : string;
  o_password_hash : string;
  o_description : string
}.

(** The whole store: the [organizations] table and the key generators of
    the two account tables, around the tables of the roster routes. *)
Record site := {
  organizations : list organization;
  organizations_id_seq : Z;
  volunteers_id_seq : Z;
  tables : db
}.

Definition empty_site : site :=
  {| organizations := []; organizations_id_seq := 1; volunteers_id_seq := 1;
     tables := empty_db |}.

Record org_body := {
  ob_name : string;
  ob_email : string;
  ob_password : string;
  ob_description : string
}.

Record volunteer_body := {
  vb_name : string;
  vb_email : string;
  vb_password : string;
  vb_interests : string
}.

Record login_body := {
  lb_email : string;
  lb_password : string;
  lb_userType : string
}.

(** [RETURNING id, name, email, description], and a row of
    [SELECT * FROM organizations] without its [password_hash]. *)
Record org_public := {
  op_id : Z;
  op_name : string;
  op_email : string;
  op_description : string
}.

(** [RETURNING id, name, email, interests], and a row of
    [SELECT * FROM volunteers] without its [password_hash]. *)
Record volunteer_public := {
  vp_id : Z;
  vp_name : string;
  vp_email : string;
  vp_interests : string
}.

Inductive account :=
| OrgAccount (o : org_public)
| VolunteerAccount (v : volunteer_public).

Inductive auth_body :=
| AuthError (error : string)
| Session (account_of : account) (token : string).

Record auth_response := {
  auth_status : nat;
  auth_payload : auth_body
}.

Definition auth_json (code : nat) (b : auth_body) : auth_response :=
  {| auth_status := code; auth_payload := b |}.

Definition org_public_of (o : organization) : org_public :=
  {| op_id := o_id o; op_name := o_name o; op_email := o_email o;
     op_description := o_description o |}.

Definition volunteer_public_of (v : volunteer) : volunteer_public :=
  {| vp_id := v_id v; vp_name := v_name v; vp_email := v_email v;
     vp_interests := v_interests v |}.

Definition insert_organization (o : organization) (s : site) : site :=
  {| organizations := organizations s ++ [o];
     organizations_id_seq := organizations_id_seq s + 1;
     volunteers_id_seq := volunteers_id_seq s;
     tables := tables s |}.

Definition insert_volunteer (v : volunteer) (s : site) : site :=
  {| organizations := organizations s;
     organizations_id_seq := organizations_id_seq s;
     volunteers_id_seq := volunteers_id_seq s + 1;
     tables :=
       {| volunteers := volunteers (tables s) ++ [v];
          events := events (tables s);
          roles := roles (tables s);
          volunteer_roles := volunteer_roles (tables s);
          events_id_seq := events_id_seq (tables s);
          roles_id_seq := roles_id_seq (tables s);
          volunteer_roles_id_seq := volunteer_roles_id_seq (tables s) |} |}.

Definition invalid_credentials : auth_response :=
  auth_json 400 (AuthError "Invalid credentials").

Section Identity.
(** The identity provider.  [bcrypt.hash] draws a salt and [jwt.sign]
    stamps the token with the instant of issue: the salt and the instant
    are arguments here.  [bcrypt.compare] is a function of the password and
    the hash. *)
Variable bcrypt_hash : string -> string -> string.
Variable bcrypt_compare : string -> string -> bool.
Variable jwt_sign : Z -> user -> string.

(** POST /api/register/org.  The INSERT is the one statement of the run. *)
Definition register_org (rej : oracle) (salt : string) (iat : Z)
    (b : org_body) (s : site)
    : auth_response * site :=
  let hashedPassword := bcrypt_hash salt (ob_password b) in
  if rej 0%nat
  then (auth_json 500 (AuthError "Email already exists or registration failed"), s)
  else
    let row := {| o_id := organizations_id_seq s;
                  o_name := ob_name b;
                  o_email := ob_email b;
                  o_password_hash := hashedPassword;
                  o_description := ob_description b |} in
    let token := jwt_sign iat {| userId := o_id row; userType := "org" |} in
    (auth_json 201 (Session (OrgAccount (org_public_of row)) token),
     insert_organization row s).

(** POST /api/register/volunteer. *)
Definition register_volunteer (rej : oracle) (salt : string) (iat : Z)
    (b : volunteer_body) (s : site) : auth_response * site :=
  let hashedPassword := bcrypt_hash salt (vb_password b) in
  if rej 0%nat
  then (auth_json 500 (AuthError "Registration failed"), s)
  else
    let row := {| v_id := volunteers_id_seq s;
                  v_name := vb_name b;
                  v_email := vb_email b;
                  v_password_hash := hashedPassword;
                  v_interests := vb_interests b |} in
    let token := jwt_sign iat {| userId := v_id row; userType := "volunteer" |} in
    (auth_json 201 (Session (VolunteerAccount (volunteer_public_of row)) token),
     insert_volunteer row s).

(** POST /api/login.  The table is [organizations] when the [userType] sent
    is ['org'] and [volunteers] otherwise; the token is signed with the
    [userType] as sent. *)
Definition login (rej : oracle) (iat : Z) (b : login_body) (s : site)
    : auth_response * site :=
  if rej 0%nat then (auth_json 500 (AuthError "Login failed"), s)
  else if String.eqb (lb_userType b) "org" then
    match filter (fun o => String.eqb (o_email o) (lb_email b))
                 (organizations s) with
    | [] => (invalid_credentials, s)
    | o :: _ =>
        if negb (bcrypt_compare (lb_password b) (o_password_hash o))
        then (invalid_credentials, s)
        else
          let token :=
            jwt_sign iat {| userId := o_id o; userType := lb_userType b |} in
          (auth_json 200 (Session (OrgAccount (org_public_of o)) token), s)
    end
  else
    match filter (fun v => String.eqb (v_email v) (lb_email b))
                 (volunteers (tables s)) with
    | [] => (invalid_credentials, s)
    | v :: _ =>
        if negb (bcrypt_compare (lb_password b) (v_password_hash v))
        then (invalid_credentials, s)
        else
          let token :=
            jwt_sign iat {| userId := v_id v; userType := lb_userType b |} in
          (auth_json 200 (Session (VolunteerAccount (volunteer_public_of v)) token),
           s)
    end.
End Identity.

(** ** GET /api/events and GET /api/events/:id *)

(** A row of the listing: [e.*], [o.name as organizer_name] and the
    [role_count] subquery. *)
Record event_listing := {
  el_event : event;
  el_organizer_name : string;
  el_role_count : nat
}.

(** A row of the roles query of the detail: [r.*] and the
    [current_volunteers] subquery. *)
Record role_listing := {
  rl_role : role;
  rl_current_volunteers : nat
}.

Inductive public_body :=
| PublicError (error : string)
| EventList (rows : list event_listing)
| EventDetail (e : event) (organizer_name : string) (roles_of : list role_listing).

Record public_response := {
  public_status : nat;
  public_payload : public_body
}.

Definition public_json (code : nat) (b : public_body) : public_response :=
  {| public_status := code; public_payload := b |}.

(** [FROM events e JOIN organizations o ON e.organizer_id = o.id] *)
Definition events_organizers (s : site) : list (event * organization) :=
  join (fun e o => e_organizer_id e =? o_id o)
       (events (tables s)) (organizations s).

(** [(SELECT COUNT( * ) FROM roles r WHERE r.event_id = e.id)] *)
Definition role_count (s : site) (e : event) : nat :=
  List.length (filter (fun r => r_event_id r =? e_id e) (roles (tables s))).

(** [(SELECT COUNT( * ) FROM volunteer_roles vr WHERE vr.role_id = r.id)] *)
Definition current_volunteers (s : site) (r : role) : nat :=
  List.length
    (filter (fun vr => vr_role_id vr =? r_id r) (volunteer_roles (tables s))).

Definition listing_of (s : site) (eo : event * organization) : event_listing :=
  {| el_event := fst eo;
     el_organizer_name := o_name (snd eo);
     el_role_count := role_count s (fst eo) |}.

Definition soonest_first (a b : event * organization) : bool :=
  e_date (fst a) <=? e_date (fst b).

(** [WHERE e.date > NOW() ORDER BY e.date ASC] *)
Definition upcoming_listing (now : Z) (s : site) : list event_listing :=
  map (listing_of s)
    (order_by soonest_first
       (filter (fun eo => now <? e_date (fst eo)) (events_organizers s))).

(** GET /api/events: one statement, no middleware. *)
Definition listEvents (rej : oracle) (now : clock) (s : site)
    : public_response * site :=
  if rej 0%nat
  then (public_json 500 (PublicError "Failed to fetch events"), s)
  else (public_json 200 (EventList (upcoming_listing (now 0%nat) s)), s).

(** [... WHERE e.id = $1] *)
Definition event_result (id : Z) (s : site) : list (event * organization) :=
  filter (fun eo => e_id (fst eo) =? id) (events_organizers s).

(** [SELECT r.*, (...) as current_volunteers FROM roles r
     WHERE r.event_id = $1] *)
Definition roles_result (id : Z) (s : site) : list role_listing :=
  map (fun r => {| rl_role := r;
                   rl_current_volunteers := current_volunteers s r |})
      (filter (fun r => r_event_id r =? id) (roles (tables s))).

(** GET /api/events/:id: both queries run before the event rows are
    looked at. *)
Definition getEvent (rej : oracle) (id : Z) (s : site)
    : public_response * site :=
  if rej 0%nat
  then (public_json 500 (PublicError "Failed to fetch event"), s)
  else if rej 1%nat
  then (public_json 500 (PublicError "Failed to fetch event"), s)
  else
    match event_result id s with
    | [] => (public_json 404 (PublicError "Event not found"), s)
    | eo :: _ =>
        (public_json 200
           (EventDetail (fst eo) (o_name (snd eo)) (roles_result id s)), s)
    end.

(** The roster routes, on the whole store. *)
Definition on_tables {R} (h : db -> R * db) (s : site) : R * site :=
  let (r, st') := h (tables s) in
  (r, {| organizations := organizations s;
         organizations_id_seq := organizations_id_seq s;
         volunteers_id_seq := volunteers_id_seq s;
         tables := st' |}).

(** * Vocabulary of the properties *)

(** The statements [k .. k+n-1] are all accepted. *)
Definition accepted (rej : oracle) (k n : nat) : Prop :=
  forall i, (i < n)%nat -> rej (k + i)%nat = false.

(** The rows the role inserts append: keys in sequence from [rid]. *)
Fixpoint number_roles (rid eid : Z) (rs : list role_body) : list role :=
  match rs with
  | [] => []
  | rb :: rs' => role_of_body rid eid rb :: number_roles (rid + 1) eid rs'
  end.

(** The rows of the two tables a creation writes. *)
Definition same_rows (st st' : db) : Prop :=
  events st' = events st /\ roles st' = roles st.

(** The event row a creation by [u] with body [b] writes in [st]. *)
Definition new_event (u : user) (b : event_body) (st : db) : event :=
  fst (insert_event (userId u) b st).

Definition claim_row (cid vid rid : Z) : volunteer_role :=
  {| vr_id := cid; vr_volunteer_id := vid; vr_role_id := rid;
     vr_attended := false |}.

(** Requests for one pair that run one after the other: the first is
    answered 201 and every later one 400, and the pair has one row. *)
Fixpoint signup_in_turn (n : nat) (u : user) (rid : Z) (st : db)
    : list response * db :=
  match n with
  | O => ([], st)
  | S n' =>
      let (r, st1) := signup accepting u rid st in
      let (rs, st2) := signup_in_turn n' u rid st1 in
      (r :: rs, st2)
  end.

(** Primary keys. *)
Definition keys_unique (st : db) : Prop :=
  NoDup (map vr_id (volunteer_roles st)) /\
  NoDup (map r_id (roles st)) /\
  NoDup (map e_id (events st)).

(** [o] is the organizer of the event of the role of the claim with key
    [recordId]. *)
Definition organizer_of_record (st : db) (recordId o : Z) : Prop :=
  exists vr r e,
    In vr (volunteer_roles st) /\ vr_id vr = recordId /\
    In r (roles st) /\ r_id r = vr_role_id vr /\
    In e (events st) /\ e_id e = r_event_id r /\
    e_organizer_id e = o.

(** [o] is the organizer of the event with key [eventId]. *)
Definition organizer_of_event (st : db) (eventId o : Z) : Prop :=
  exists e, In e (events st) /\ e_id e = eventId /\ e_organizer_id e = o.

(** The claims of a volunteer, each with its role and its role's event. *)
Definition claims_of (vid : Z) (st : db) : list assignment :=
  filter (fun t => vr_volunteer_id (a_claim t) =? vid) (events_roles_claims st).

Definition starts_after (now : Z) (t : assignment) : bool :=
  now <? e_date (a_event t).

Definition started_by (now : Z) (t : assignment) : bool :=
  e_date (a_event t) <=? now.

Definition row_date (r : profile_row) : Z := e_date (pr_event r).


(** The number of entries whose attended flag is true. *)
Fixpoint attended_count (rows : list profile_row) : nat :=
  match rows with
  | [] => 0
  | r :: rows' => (if pr_attended r then 1 else 0) + attended_count rows'
  end.

(** The keys of a table are distinct and below its generator. *)
Definition fresh_keys (keys : list Z) (seq : Z) : Prop :=
  NoDup keys /\ Forall (fun k => k < seq) keys.

Definition wf (st : db) : Prop :=
  fresh_keys (map e_id (events st)) (events_id_seq st) /\
  fresh_keys (map r_id (roles st)) (roles_id_seq st) /\
  fresh_keys (map vr_id (volunteer_roles st)) (volunteer_roles_id_seq st).

(** No generator has gone back. *)
Definition seq_le (st st' : db) : Prop :=
  events_id_seq st <= events_id_seq st' /\
  roles_id_seq st <= roles_id_seq st' /\
  volunteer_roles_id_seq st <= volunteer_roles_id_seq st'.

Definition outcome_db {A} (o : outcome A) : db :=
  match o with
  | Returned _ st => st
  | Thrown st => st
  end.

(** A run from [st] that ends in [st']: keys still fresh, no generator
    gone back. *)
Definition keeps (st st' : db) : Prop := wf st' /\ seq_le st st'.

(** * Stores and callers used as examples *)

Definition org7 : user := {| userId := 7; userType := "org" |}.

Definition setup2 : role_body :=
  {| rb_name := "Setup"; rb_description := "Tables"; requiredVolunteers := 2 |}.

Definition cleanup_minus1 : role_body :=
  {| rb_name := "Cleanup"; rb_description := "Bins"; requiredVolunteers := -1 |}.

(** The fair, with the role objects [rs]. *)
Definition fair (rs : option (list role_body)) : event_body :=
  {| req_title := "Fair"; req_description := "Spring fair"; req_date := 100;
     req_location := "Park"; req_roles := option_map (map Some) rs |}.

(** The fair with the roles [[null]]. *)
Definition fair_with_null : event_body :=
  {| req_title := "Fair"; req_description := "Spring fair"; req_date := 100;
     req_location := "Park"; req_roles := Some [None] |}.

(** The store rejects statement [n] alone. *)
Definition rejecting (n : nat) : oracle := fun k => Nat.eqb k n.

Definition vol5 : user := {| userId := 5; userType := "volunteer" |}.

(** A store with the event "Fair" of organization 7 (key 1) and its role
    "Setup" (key 1). *)
Definition fair_db : db :=
  snd (createEvent accepting org7 (fair (Some [setup2])) empty_db).

(** The store after volunteer 5 has claimed role 1 of the fair (claim 1). *)
Definition claimed_db : db := snd (signup accepting vol5 1 fair_db).

Definition org8 : user := {| userId := 8; userType := "org" |}.


(** A volunteer token whose user id is 7, the id of organization 7. *)
Definition vol7 : user := {| userId := 7; userType := "volunteer" |}.

(** The store after organization 7 has marked claim 1 attended. *)
Definition attended_db : db := snd (setAttendance accepting org7 1 true claimed_db).

(** * Vocabulary of the further properties *)

(** The phase of a request in flight: statements it has run. *)
Definition phase (t : signup_task) : nat :=
  match t with
  | Arrived _ _ _ => 0
  | Checked _ _ _ => 1
  | Responded _ => 2
  end.

(** A request of [u] for [rid] whose statements are all accepted, and the
    rows of its pair: none until its INSERT has run, one afterwards. *)
Definition on_course (u : user) (rid : Z) (t : signup_task) (st : db) : Prop :=
  match t with
  | Arrived rej u' rid' =>
      rej = accepting /\ u' = u /\ rid' = rid /\
      existing_signup (userId u) rid st = []
  | Checked rej u' rid' =>
      rej = accepting /\ u' = u /\ rid' = rid /\
      existing_signup (userId u) rid st = []
  | Responded r =>
      r = signed_up /\
      List.length (existing_signup (userId u) rid st) = 1%nat
  end.

(** The order of the roster under a collation: by role name, then by
    volunteer name. *)
Definition roster_ordered (collate : collation) (a b : roster_row) : Prop :=
  collate (ro_role_name a) (ro_role_name b) = Lt \/
  (collate (ro_role_name a) (ro_role_name b) = Eq /\
   collate (ro_name a) (ro_name b) <> Gt).

(** The rows the roster query joins, before the projection. *)
Definition roster_enrolments (collate : collation) (eventId : Z) (st : db)
    : list enrolment :=
  order_by (role_then_name collate)
    (filter (fun t => r_event_id (snd t) =? eventId)
       (join (fun vvr r => vr_role_id (snd vvr) =? r_id r)
          (join (fun v vr => v_id v =? vr_volunteer_id vr)
                (volunteers st) (volunteer_roles st))
          (roles st))).

(** No character of [s] is a space. *)
Fixpoint spaceless (s : string) : bool :=
  match s with
  | EmptyString => true
  | String c s' => negb (Ascii.eqb c " "%char) && spaceless s'
  end.

(** The rows [login] reads for a body: key and password hash, from the table
    the [userType] sent selects. *)
Definition credentials_of (b : login_body) (s : site) : list (Z * string) :=
  if String.eqb (lb_userType b) "org"
  then map (fun o => (o_id o, o_password_hash o))
           (filter (fun o => String.eqb (o_email o) (lb_email b))
                   (organizations s))
  else map (fun v => (v_id v, v_password_hash v))
           (filter (fun v => String.eqb (v_email v) (lb_email b))
                   (volunteers (tables s))).

(** Every role refers to an event key already drawn, every claim to a role
    key already drawn. *)
Definition references_drawn (st : db) : Prop :=
  Forall (fun r => r_event_id r < events_id_seq st) (roles st) /\
  Forall (fun vr => vr_role_id vr < roles_id_seq st) (volunteer_roles st).

(** * Further stores and callers used as examples *)

(** A toy identity provider: the hash is the password, the token spells the
    kind and the key of the account. *)
Definition toy_hash (salt password : string) : string := password.

Definition toy_compare (password hash : string) : bool :=
  String.eqb password hash.

Definition toy_sign (iat : Z) (u : user) : string :=
  String.append (userType u)
    (String.append "." (if userId u =? 1 then "1" else "n")).

Definition toy_verify (token : string) : option user :=
  if String.eqb token "org.1" then Some {| userId := 1; userType := "org" |}
  else if String.eqb token "volunteer.1"
       then Some {| userId := 1; userType := "volunteer" |}
       else None.

Definition acme : org_body :=
  {| ob_name := "Acme"; ob_email := "acme@example.org";
     ob_password := "hunter2"; ob_description := "Tools" |}.

Definition ann : volunteer_body :=
  {| vb_name := "Ann"; vb_email := "ann@example.org";
     vb_password := "s3cret"; vb_interests := "parks" |}.

(** The store after organization 7 has created the fair with the role
    "Setup" twice, and volunteers 5 and 6 have both claimed role 1, whose
    headcount is 2. *)
Definition full_db : db :=
  snd (signup accepting {| userId := 6; userType := "volunteer" |} 1
         (snd (signup accepting vol5 1
                 (snd (createEvent accepting org7
                         (fair (Some [setup2; setup2])) empty_db))))).

Definition vol9 : user := {| userId := 9; userType := "volunteer" |}.

(** Organization 1 (Acme) is registered and has created the fair. *)
Definition acme_site : site :=
  {| organizations :=
       [{| o_id := 1; o_name := "Acme"; o_email := "acme@example.org";
           o_password_hash := "hunter2"; o_description := "Tools" |}];
     organizations_id_seq := 2;
     volunteers_id_seq := 1;
     tables :=
       snd (createEvent accepting {| userId := 1; userType := "org" |}
              (fair (Some [setup2])) empty_db) |}.

(** The fair of organization 7, which has no row in [organizations]. *)
Definition orphan_site : site :=
  {| organizations := []; organizations_id_seq := 1; volunteers_id_seq := 1;
     tables := fair_db |}.

(** The store [claimed_db] with the account row of volunteer 5. *)
Definition eve_db : db :=
  {| volunteers := [{| v_id := 5; v_name := "Eve";
                       v_email := "eve@example.org";
                       v_password_hash := "h"; v_interests := "parks" |}];
     events := events claimed_db;
     roles := roles claimed_db;
     volunteer_roles := volunteer_roles claimed_db;
     events_id_seq := events_id_seq claimed_db;
     roles_id_seq := roles_id_seq claimed_db;
     volunteer_roles_id_seq := volunteer_roles_id_seq claimed_db |}.

(** * Properties *)

(** ** The query interface *)

Lemma accepted_accepting k n : accepted accepting k n.
Proof. intros i _. reflexivity. Qed.

Lemma accepted_S rej k n :
  accepted rej k (S n) <-> rej k = false /\ accepted rej (S k) n.
Proof.
  unfold accepted. split.
  - intros H. split.
    + rewrite <- (Nat.add_0_r k). apply H. lia.
    + intros i Hi. replace (S k + i)%nat with (k + S i)%nat by lia.
      apply H. lia.
  - intros [H0 H] [|i] Hi.
    + now rewrite Nat.add_0_r.
    + replace (k + S i)%nat with (S k + i)%nat by lia. apply H. lia.
Qed.

Lemma accepted_dec rej k n :
  accepted rej k n \/ exists i, (i < n)%nat /\ rej (k + i)%nat = true.
Proof.
  revert k. induction n as [|n IH]; intros k.
  - left. intros i Hi. lia.
  - destruct (rej k) eqn:Hk.
    + right. exists 0%nat. rewrite Nat.add_0_r. split; [lia | assumption].
    + destruct (IH (S k)) as [Hacc | (i & Hi & Hrej)].
      * left. apply accepted_S. now split.
      * right. exists (S i). split; [lia|].
        now replace (k + S i)%nat with (S k + i)%nat by lia.
Qed.

Lemma accepted_not_rejected rej k n i :
  accepted rej k n -> (i < n)%nat -> rej (k + i)%nat = true -> False.
Proof. intros H Hi Hr. rewrite (H i Hi) in Hr. discriminate. Qed.

(** ** POST /api/events *)

Lemma insert_roles_accepted rej eid rs : forall k st,
  accepted rej k (List.length rs) ->
  exists st',
    insert_roles rej k eid (map Some rs) st = Returned tt st' /\
    volunteers st' = volunteers st /\
    events st' = events st /\
    roles st' = roles st ++ number_roles (roles_id_seq st) eid rs /\
    volunteer_roles st' = volunteer_roles st.
Proof.
  induction rs as [|rb rs IH]; intros k st Hacc; simpl.
  - exists st. unfold ret. rewrite app_nil_r. repeat split.
  - apply accepted_S in Hacc. destruct Hacc as [Hk Hacc].
    unfold bind, query. rewrite Hk. simpl.
    destruct (IH (S k) (snd (insert_role eid rb st)) Hacc)
      as (st' & Hrun & Hv & He & Hr & Hvr).
    exists st'. simpl in *. rewrite Hrun, Hv, He, Hr, Hvr.
    rewrite <- app_assoc. repeat split.
Qed.

(** The loop throws on a [null] element and on a rejected insert. *)
Lemma insert_roles_thrown rej eid rs : forall k st,
  In None rs \/
  (exists i, (i < List.length rs)%nat /\ rej (k + i)%nat = true) ->
  exists st', insert_roles rej k eid rs st = Thrown st'.
Proof.
  induction rs as [|[rb|] rs IH]; intros k st H; simpl in *.
  - destruct H as [[] | (i & Hi & _)]. lia.
  - unfold bind, query. destruct (rej k) eqn:Hk.
    + now exists st.
    + simpl. apply IH. destruct H as [[Heq | Hin] | (i & Hi & Hrej)].
      * discriminate.
      * now left.
      * right. destruct i as [|i].
        -- rewrite Nat.add_0_r in Hrej. congruence.
        -- exists i. split; [lia|].
           now replace (S k + i)%nat with (k + S i)%nat by lia.
  - now exists st.
Qed.

(** A sequence is made of objects only, or has a [null] element. *)
Lemma objects_or_null {A} (rs : list (option A)) :
  (exists objs, rs = map Some objs) \/ In None rs.
Proof.
  induction rs as [|[x|] rs IH].
  - left. now exists [].
  - destruct IH as [(objs & ->) | Hin].
    + left. now exists (x :: objs).
    + right. now right.
  - right. now left.
Qed.


(** A creation all of whose statements are accepted answers 201 with the
    event row, and appends that row and one role row per role. *)
Lemma createEvent_accepted rej u b rs st :
  userType u = "org" ->
  req_roles b = Some (map Some rs) ->
  accepted rej 0 (3 + List.length rs) ->
  exists st',
    createEvent rej u b st = (json 201 (EventBody (new_event u b st)), st') /\
    volunteers st' = volunteers st /\
    events st' = events st ++ [new_event u b st] /\
    roles st' =
      roles st ++ number_roles (roles_id_seq st) (events_id_seq st) rs /\
    volunteer_roles st' = volunteer_roles st.
Proof.
  intros Hu Hb Hacc.
  assert (H0 : rej 0%nat = false) by (apply (Hacc 0%nat); lia).
  assert (H1 : rej 1%nat = false) by (apply (Hacc 1%nat); lia).
  assert (Hc : rej (2 + List.length rs)%nat = false)
    by (apply (Hacc (2 + List.length rs)%nat); lia).
  assert (Hr : accepted rej 2 (List.length rs)).
  { intros i Hi. apply (Hacc (2 + i)%nat). lia. }
  unfold createEvent, createEvent_try. rewrite Hu. simpl negb. cbv iota.
  unfold bind at 1. unfold query at 1. rewrite H0. simpl.
  unfold bind at 1. unfold query at 1. rewrite H1. simpl.
  rewrite Hb, length_map.
  destruct (insert_roles_accepted rej (events_id_seq st) rs 2
              (snd (insert_event (userId u) b st)) Hr)
    as (st' & Hrun & Hv & He & Hro & Hvr).
  unfold bind at 1. simpl in Hrun. rewrite Hrun.
  unfold bind at 1. unfold query at 1. simpl in Hc. rewrite Hc. simpl.
  exists st'. simpl in *. unfold new_event. simpl. repeat split; assumption.
Qed.

(** A creation one of whose statements is rejected, or whose roles cannot be
    iterated or hold a [null], answers 500 and leaves the rows of every
    table as they were. *)
Lemma createEvent_rolled_back rej u b st :
  userType u = "org" ->
  (forall rs, req_roles b = Some rs ->
     In None rs \/
     exists i, (i < 3 + List.length rs)%nat /\ rej i = true) ->
  exists st',
    createEvent rej u b st =
      (json 500 (ErrorBody "Failed to create event"), st') /\
    volunteers st' = volunteers st /\
    events st' = events st /\
    roles st' = roles st /\
    volunteer_roles st' = volunteer_roles st.
Proof.
  intros Hu Hrej.
  unfold createEvent. rewrite Hu. simpl negb. cbv iota.
  assert (Hthrown : exists st1, createEvent_try rej u b st = Thrown st1).
  { unfold createEvent_try.
    unfold bind at 1. unfold query at 1.
    destruct (rej 0%nat) eqn:H0; [now eexists|]. simpl.
    unfold bind at 1. unfold query at 1.
    destruct (rej 1%nat) eqn:H1; [now eexists|]. simpl.
    destruct (req_roles b) as [rs|] eqn:Hb; [|now eexists].
    assert (Hloop : forall st1,
              In None rs \/
              (exists j, (j < List.length rs)%nat /\ rej (2 + j)%nat = true) ->
              exists st2,
                bind (insert_roles rej 2 (events_id_seq st) rs)
                     (fun _ => bind (query rej (2 + List.length rs) no_effect)
                                    (fun _ => ret (fst (insert_event (userId u) b st))))
                     st1 = Thrown st2).
    { intros st1 H.
      destruct (insert_roles_thrown rej (events_id_seq st) rs 2 st1 H)
        as (st2 & Hrun).
      unfold bind at 1. rewrite Hrun. now eexists. }
    destruct (Hrej rs eq_refl) as [Hnull | (i & Hi & Hri)];
      [apply Hloop; now left|].
    destruct (objects_or_null rs) as [(objs & ->) | Hnull];
      [|apply Hloop; now left].
    rewrite length_map in Hi.
    destruct (accepted_dec rej 2 (List.length objs)) as [Hacc | Hj];
      [|apply Hloop; rewrite length_map; now right].
    rewrite length_map.
    destruct (insert_roles_accepted rej (events_id_seq st) objs 2
                (snd (insert_event (userId u) b st)) Hacc)
      as (st2 & Hrun & _).
    unfold bind at 1. simpl in Hrun. rewrite Hrun.
    unfold bind at 1. unfold query at 1.
    assert (Hi' : i = (2 + List.length objs)%nat).
    { destruct (Nat.eq_dec i 0) as [->|]; [congruence|].
      destruct (Nat.eq_dec i 1) as [->|]; [congruence|].
      destruct (Nat.eq_dec i (2 + List.length objs)) as [|Hne]; [assumption|].
      exfalso.
      apply (accepted_not_rejected rej 2 (List.length objs) (i - 2) Hacc);
        [lia|]. now replace (2 + (i - 2))%nat with i by lia. }
    subst i. simpl in Hri. rewrite Hri. now eexists. }
  destruct Hthrown as (st1 & ->).
  eexists. split; [reflexivity|]. simpl. repeat split.
Qed.

Lemma createEvent_not_org rej u b st :
  userType u <> "org" -> createEvent rej u b st = (sendStatus 403, st).
Proof.
  intros Hu. unfold createEvent.
  destruct (String.eqb_spec (userType u) "org") as [|_]; [contradiction|].
  reflexivity.
Qed.

(** C2. [createEvent] is all-or-nothing.  Whatever the caller, the body and
    the statements the store rejects, either the answer is 201 and the event
    row and one role row per role of the request have been appended, or the
    answer is 403 or 500 and the rows of [events] and [roles] are what they
    were; a rejected role insert always gives the second case. *)
Theorem createEvent_all_or_nothing rej u b st :
  let r := fst (createEvent rej u b st) in
  let st' := snd (createEvent rej u b st) in
  ((status r = 201%nat /\
    exists rs, req_roles b = Some (map Some rs) /\
      events st' = events st ++ [new_event u b st] /\
      roles st' =
        roles st ++ number_roles (roles_id_seq st) (events_id_seq st) rs)
   \/
   ((status r = 403%nat \/ status r = 500%nat) /\ same_rows st st'))
  /\
  (forall rs i,
     req_roles b = Some rs -> (i < List.length rs)%nat ->
     rej (2 + i)%nat = true ->
     status r <> 201%nat /\ same_rows st st').
Proof.
  cbv zeta.
  destruct (String.eqb_spec (userType u) "org") as [Hu|Hu].
  - destruct (req_roles b) as [rs|] eqn:Hb.
    + destruct (objects_or_null rs) as [(objs & ->) | Hnull].
      * destruct (accepted_dec rej 0 (3 + List.length objs))
          as [Hacc | (j & Hj & Hrj)].
        -- destruct (createEvent_accepted rej u b objs st Hu Hb Hacc)
             as (st' & -> & _ & He & Hr & _).
           split.
           ++ left. split; [reflexivity|]. exists objs. now repeat split.
           ++ intros rs' i Hrs' Hi Hrej. injection Hrs' as <-.
              rewrite length_map in Hi. exfalso.
              apply (accepted_not_rejected rej 0 _ (2 + i) Hacc);
                [lia|exact Hrej].
        -- destruct (createEvent_rolled_back rej u b st Hu)
             as (st' & -> & _ & He & Hr & _).
           { intros rs' Hrs'. rewrite Hb in Hrs'. injection Hrs' as <-.
             right. exists j. now rewrite length_map. }
           split.
           ++ right. split; [now right | now split].
           ++ intros _ _ _ _ _. split; [discriminate | now split].
      * destruct (createEvent_rolled_back rej u b st Hu)
          as (st' & -> & _ & He & Hr & _).
        { intros rs' Hrs'. rewrite Hb in Hrs'. injection Hrs' as <-.
          now left. }
        split.
        -- right. split; [now right | now split].
        -- intros _ _ _ _ _. split; [discriminate | now split].
    + destruct (createEvent_rolled_back rej u b st Hu)
        as (st' & -> & _ & He & Hr & _).
      { intros rs' Hrs'. rewrite Hb in Hrs'. discriminate. }
      split.
      * right. split; [now right | now split].
      * intros rs' i Hrs'. discriminate.
  - rewrite (createEvent_not_org rej u b st Hu). split.
    + right. split; [now left | now split].
    + intros _ _ _ _ _. split; [discriminate | now split].
Qed.

Lemma createEvent_all_or_nothing_witness :
  status (fst (createEvent (rejecting 3) org7
                 (fair (Some [setup2; cleanup_minus1])) empty_db)) <> 201%nat /\
  same_rows empty_db
    (snd (createEvent (rejecting 3) org7
            (fair (Some [setup2; cleanup_minus1])) empty_db)).
Proof.
  apply (proj2 (createEvent_all_or_nothing (rejecting 3) org7
                  (fair (Some [setup2; cleanup_minus1])) empty_db)
               [Some setup2; Some cleanup_minus1] 1%nat).
  - reflexivity.
  - simpl. lia.
  - reflexivity.
Defined.




(** A [null] among the roles: reading [role.name] throws inside the [try],
    and the creation is answered 500 with no row written although the store
    rejects nothing. *)
Lemma createEvent_null_role :
  status (fst (createEvent accepting org7 fair_with_null empty_db)) = 500%nat /\
  same_rows empty_db (snd (createEvent accepting org7 fair_with_null empty_db)).
Proof. split; [reflexivity | split; reflexivity]. Qed.

(** ** POST /api/roles/:roleId/signup *)

(** A run of the handler whose statements are accepted: 400 and no write
    when the pair has a row, 201 and one more row when it has none. *)
Lemma signup_accepted rej u rid st :
  userType u = "volunteer" ->
  accepted rej 0 2 ->
  (existing_signup (userId u) rid st <> [] ->
     signup rej u rid st = (already_signed_up, st)) /\
  (existing_signup (userId u) rid st = [] ->
     fst (signup rej u rid st) = signed_up /\
     volunteer_roles (snd (signup rej u rid st)) =
       volunteer_roles st ++
       [claim_row (volunteer_roles_id_seq st) (userId u) rid]).
Proof.
  intros Hu Hacc.
  assert (H0 : rej 0%nat = false) by (apply (Hacc 0%nat); lia).
  assert (H1 : rej 1%nat = false) by (apply (Hacc 1%nat); lia).
  unfold signup, signup_try, bind, query, select. rewrite Hu, H0. simpl.
  split; intros Hex.
  - destruct (existing_signup (userId u) rid st); [contradiction|]. reflexivity.
  - rewrite Hex. simpl. rewrite H1. simpl. split; reflexivity.
Qed.

(** A rejected statement: 500, and the store as it was. *)
Lemma signup_rejected rej u rid st :
  userType u = "volunteer" ->
  rej 0%nat = true \/
  (existing_signup (userId u) rid st = [] /\ rej 1%nat = true) ->
  signup rej u rid st = (signup_failed, st).
Proof.
  intros Hu H.
  unfold signup, signup_try, bind, query, select. rewrite Hu. simpl.
  destruct (rej 0%nat) eqn:H0; [reflexivity|].
  destruct H as [H | [Hex H1]]; [discriminate|].
  rewrite Hex. simpl. rewrite H1. reflexivity.
Qed.

Lemma signup_status rej u rid st :
  In (status (fst (signup rej u rid st))) [201; 400; 403; 500]%nat.
Proof.
  unfold signup, signup_try, bind, query, select.
  destruct (negb (String.eqb (userType u) "volunteer")); [simpl; tauto|].
  destruct (rej 0%nat); [simpl; tauto|].
  destruct (0 <? List.length (existing_signup (userId u) rid st))%nat;
    [simpl; tauto|].
  unfold ret. destruct (rej 1%nat); simpl; tauto.
Qed.

(** A request scheduled on its own, statement after statement, is the
    handler. *)
Lemma run_alone rej u rid st :
  run_schedule [0; 0]%nat [Arrived rej u rid] st =
    ([Responded (fst (signup rej u rid st))], snd (signup rej u rid st)).
Proof.
  unfold signup, signup_try, bind. simpl.
  destruct (negb (String.eqb (userType u) "volunteer")); [reflexivity|].
  destruct (query rej 0 (select (existing_signup (userId u) rid)) st)
    as [ex st1|st1]; [|reflexivity].
  destruct (0 <? List.length ex)%nat; [reflexivity|]. simpl.
  destruct (query rej 1 (insert_volunteer_role (userId u) rid) st1);
    reflexivity.
Qed.

Lemma existing_signup_app vid rid st row :
  filter (fun vr => (vr_volunteer_id vr =? vid) && (vr_role_id vr =? rid))
         (volunteer_roles st ++ [row]) =
  existing_signup vid rid st ++
  (if (vr_volunteer_id row =? vid) && (vr_role_id row =? rid)
   then [row] else []).
Proof. unfold existing_signup. now rewrite filter_app. Qed.

Lemma signup_in_turn_duplicates n u rid st :
  userType u = "volunteer" ->
  existing_signup (userId u) rid st <> [] ->
  signup_in_turn n u rid st = (repeat already_signed_up n, st).
Proof.
  intros Hu Hex. induction n as [|n IH]; [reflexivity|]. simpl.
  destruct (signup_accepted accepting u rid st Hu (accepted_accepting 0 2))
    as [Hdup _].
  rewrite (Hdup Hex), IH. reflexivity.
Qed.

Lemma signup_in_turn_once n u rid st :
  userType u = "volunteer" ->
  existing_signup (userId u) rid st = [] ->
  fst (signup_in_turn (S n) u rid st) =
    signed_up :: repeat already_signed_up n /\
  existing_signup (userId u) rid (snd (signup_in_turn (S n) u rid st)) =
    [claim_row (volunteer_roles_id_seq st) (userId u) rid].
Proof.
  intros Hu Hex. simpl.
  destruct (signup_accepted accepting u rid st Hu (accepted_accepting 0 2))
    as [_ Hnew].
  destruct (Hnew Hex) as [Hr Hrows].
  destruct (signup accepting u rid st) as [r st1]. simpl in Hr, Hrows. subst r.
  assert (Hex1 : existing_signup (userId u) rid st1 =
                 [claim_row (volunteer_roles_id_seq st) (userId u) rid]).
  { unfold existing_signup at 1. rewrite Hrows, existing_signup_app, Hex.
    simpl. now rewrite !Z.eqb_refl. }
  rewrite signup_in_turn_duplicates; [|assumption|now rewrite Hex1].
  simpl. now split.
Qed.

(** C1.  Two signup requests of volunteer 5 for role 1 are in flight and the
    store runs their statements in the order SELECT, SELECT, INSERT, INSERT.
    When the store accepts both inserts, both requests are answered 201 and
    the pair has two rows; when the store rejects the second insert (as it
    would under a uniqueness constraint on the pair), the second request is
    answered 500.  In neither case is the second request answered 400, so
    the check and the insert are not one atomic step. *)
Theorem signup_race :
  (let (ts, st) :=
     run_schedule [0; 1; 0; 1]%nat
       [Arrived accepting vol5 1; Arrived accepting vol5 1] fair_db in
   map answer ts = [Some signed_up; Some signed_up] /\
   existing_signup 5 1 st = [claim_row 1 5 1; claim_row 2 5 1]) /\
  (let (ts, st) :=
     run_schedule [0; 1; 0; 1]%nat
       [Arrived accepting vol5 1; Arrived (rejecting 1) vol5 1] fair_db in
   map answer ts = [Some signed_up; Some signup_failed] /\
   existing_signup 5 1 st = [claim_row 1 5 1]).
Proof. split; split; reflexivity. Qed.

(** C5, as the claim states it, fails: volunteer 5 signs up for role 99,
    which no row of [roles] has.  If the store accepts the insert the answer
    is 201 and the row is written; if it rejects it the answer is 500.  The
    answer is 404 in neither case. *)
Lemma signup_unknown_role_not_404 :
  filter (fun r => r_id r =? 99) (roles fair_db) = [] /\
  fst (signup accepting vol5 99 fair_db) = signed_up /\
  volunteer_roles (snd (signup accepting vol5 99 fair_db)) =
    [claim_row 1 5 99] /\
  signup (rejecting 1) vol5 99 fair_db = (signup_failed, fair_db).
Proof. repeat split; reflexivity. Qed.

(** C5, amended.  A signup by a volunteer for a role id that no role has is
    never answered 404, the handler does not look the role up: with no row
    for the pair and both statements accepted the answer is 201 and the claim
    row is written; when the store rejects a statement the answer is 500 and
    nothing is written; when the pair has a row the answer is 400 and nothing
    is written. *)
Theorem signup_unknown_role rej u rid st :
  userType u = "volunteer" ->
  (forall r, In r (roles st) -> r_id r <> rid) ->
  status (fst (signup rej u rid st)) <> 404%nat /\
  (accepted rej 0 2 -> existing_signup (userId u) rid st = [] ->
     fst (signup rej u rid st) = signed_up /\
     volunteer_roles (snd (signup rej u rid st)) =
       volunteer_roles st ++
       [claim_row (volunteer_roles_id_seq st) (userId u) rid]) /\
  (accepted rej 0 2 -> existing_signup (userId u) rid st <> [] ->
     signup rej u rid st = (already_signed_up, st)) /\
  (rej 0%nat = true \/
   (existing_signup (userId u) rid st = [] /\ rej 1%nat = true) ->
     signup rej u rid st = (signup_failed, st)).
Proof.
  intros Hu _. split; [|split; [|split]].
  - pose proof (signup_status rej u rid st) as H. simpl in H.
    intros H404. rewrite H404 in H.
    repeat (destruct H as [H|H]; [discriminate|]). exact H.
  - intros Hacc. apply (signup_accepted rej u rid st Hu Hacc).
  - intros Hacc. apply (signup_accepted rej u rid st Hu Hacc).
  - apply signup_rejected. exact Hu.
Qed.

Lemma signup_unknown_role_witness :
  status (fst (signup (rejecting 1) vol5 99 fair_db)) <> 404%nat /\
  signup (rejecting 1) vol5 99 fair_db = (signup_failed, fair_db).
Proof.
  assert (Hno : forall r, In r (roles fair_db) -> r_id r <> 99).
  { intros r [<-|[]]. discriminate. }
  destruct (signup_unknown_role (rejecting 1) vol5 99 fair_db eq_refl Hno)
    as (H404 & _ & _ & Hrej).
  split; [exact H404|].
  apply Hrej. right. split; reflexivity.
Defined.

(** ** The race, whatever the store rejects *)

(** Two requests for a pair that has no row, their statements in the order
    SELECT, SELECT, INSERT, INSERT, both SELECTs accepted: the second
    request is never answered 400; it is answered 201 and the pair has a
    second row, or its insert is rejected and it is answered 500. *)
Lemma race_never_conflict rejA rejB u rid st :
  userType u = "volunteer" ->
  existing_signup (userId u) rid st = [] ->
  rejA 0%nat = false -> rejB 0%nat = false ->
  exists a st',
    run_schedule [0; 1; 0; 1]%nat [Arrived rejA u rid; Arrived rejB u rid] st =
      ([Responded a; Responded (if rejB 1%nat then signup_failed else signed_up)],
       st') /\
    (rejA 1%nat = false -> rejB 1%nat = false ->
       a = signed_up /\
       List.length (existing_signup (userId u) rid st') = 2%nat).
Proof.
  intros Hu Hex HA HB. simpl.
  unfold query, select. rewrite Hu, HA. simpl.
  rewrite Hex. simpl. rewrite HB, Hex. simpl.
  unfold query.
  destruct (rejA 1%nat); simpl.
  - destruct (rejB 1%nat); simpl; do 2 eexists; (split; [reflexivity|]);
      intros; discriminate.
  - destruct (rejB 1%nat); simpl; do 2 eexists; (split; [reflexivity|]);
      intros; try discriminate.
    split; [reflexivity|].
    unfold existing_signup in *. simpl.
    rewrite !filter_app, Hex. simpl. now rewrite !Z.eqb_refl.
Qed.

(** ** Joins and lookups by key *)

Lemma in_join {A B} (on : A -> B -> bool) l r a b :
  In (a, b) (join on l r) <-> In a l /\ In b r /\ on a b = true.
Proof.
  unfold join. rewrite in_flat_map. split.
  - intros (a' & Ha' & Hin). apply in_map_iff in Hin.
    destruct Hin as (b' & Heq & Hb'). injection Heq as -> ->.
    apply filter_In in Hb'. tauto.
  - intros (Ha & Hb & Hon). exists a. split; [assumption|].
    apply in_map. apply filter_In. tauto.
Qed.

Lemma filter_none {A} (p : A -> bool) l :
  (forall x, In x l -> p x = false) -> filter p l = [].
Proof.
  induction l as [|x l IH]; intros H; simpl; [reflexivity|].
  rewrite (H x (or_introl eq_refl)). apply IH. intros y Hy. apply H. now right.
Qed.

(** A condition on the left row of a join can be applied before the join. *)
Lemma filter_join_left {A B} (on : A -> B -> bool) (p : A -> bool) l r :
  filter (fun t => p (fst t)) (join on l r) = join on (filter p l) r.
Proof.
  unfold join. induction l as [|a l IH]; simpl; [reflexivity|].
  rewrite filter_app, IH.
  assert (Hrow : forall xs,
             filter (fun t : A * B => p (fst t)) (map (pair a) xs) =
             if p a then map (pair a) xs else []).
  { induction xs as [|x xs IHxs]; simpl.
    - now destruct (p a).
    - rewrite IHxs. now destruct (p a). }
  rewrite Hrow. destruct (p a); reflexivity.
Qed.

(** Rewriting the left rows by a function the join condition does not see. *)
Lemma join_map_left {A B} (on : A -> B -> bool) (f : A -> A) l r :
  (forall a b, on (f a) b = on a b) ->
  join on (map f l) r = map (fun t => (f (fst t), snd t)) (join on l r).
Proof.
  intros Hon. unfold join. induction l as [|a l IH]; simpl; [reflexivity|].
  rewrite map_app, IH, map_map. simpl.
  now rewrite (filter_ext (on (f a)) (on a) (Hon a)).
Qed.

(** In a table with unique keys, a condition that holds of the rows with the
    key of [x] only selects [x]. *)
Lemma filter_unique {A} (key : A -> Z) (p : A -> bool) l x :
  NoDup (map key l) -> In x l ->
  (forall y, p y = true <-> key y = key x) ->
  filter p l = [x].
Proof.
  intros Hnd Hin Hp. induction l as [|y l IH]; [contradiction|].
  simpl in Hnd. inversion Hnd as [|k ks Hnotin Hnd']; subst.
  simpl. destruct Hin as [->|Hin].
  - rewrite (proj2 (Hp x) eq_refl). f_equal.
    apply filter_none. intros z Hz.
    destruct (p z) eqn:Hpz; [|reflexivity].
    exfalso. apply Hnotin. apply Hp in Hpz. rewrite <- Hpz. now apply in_map.
  - destruct (p y) eqn:Hpy.
    + exfalso. apply Hnotin. apply Hp in Hpy. rewrite Hpy. now apply in_map.
    + now apply IH.
Qed.

(** In a table with unique keys, two rows with one key are one row. *)
Lemma unique_by_key {A} (key : A -> Z) l x y :
  NoDup (map key l) -> In x l -> In y l -> key x = key y -> x = y.
Proof.
  induction l as [|z l IH]; intros Hnd Hx Hy Hk; [contradiction|].
  simpl in Hnd. inversion Hnd as [|k ks Hnotin Hnd']; subst.
  destruct Hx as [->|Hx]; destruct Hy as [->|Hy].
  - reflexivity.
  - exfalso. apply Hnotin. rewrite Hk. now apply in_map.
  - exfalso. apply Hnotin. rewrite <- Hk. now apply in_map.
  - now apply IH.
Qed.

(** A join of two tables without repeated rows has no repeated row. *)
Lemma join_NoDup {A B} (on : A -> B -> bool) l r :
  NoDup l -> NoDup r -> NoDup (join on l r).
Proof.
  intros Hl Hr. unfold join. induction Hl as [|a l Hnotin _ IH]; simpl.
  - constructor.
  - apply NoDup_app.
    + apply NoDup_map_NoDup_ForallPairs.
      * intros x y _ _ Heq. now injection Heq.
      * now apply NoDup_filter.
    + exact IH.
    + intros [a' b'] Hin Hin'. apply in_map_iff in Hin.
      destruct Hin as (b0 & Heq & _). injection Heq as Ha Hb. subst a' b'.
      apply in_join in Hin'. tauto.
Qed.

(** A function that tells the rows of a list apart keeps them apart. *)
Lemma NoDup_map_on {A B} (f : A -> B) l :
  NoDup l ->
  (forall x y, In x l -> In y l -> f x = f y -> x = y) ->
  NoDup (map f l).
Proof.
  intros Hnd Hinj. apply NoDup_map_NoDup_ForallPairs; [|assumption].
  intros x y Hx Hy. now apply Hinj.
Qed.

Lemma record_check_chain st recordId o :
  keys_unique st -> organizer_of_record st recordId o ->
  record_check recordId st = [o].
Proof.
  intros (Hvr & Hr & He) (vr & r & e & Hin_vr & Hid & Hin_r & Hrid & Hin_e & Heid & Ho).
  unfold record_check.
  rewrite (filter_join_left _ (fun vrr => vr_id (fst vrr) =? recordId)).
  rewrite (filter_join_left _ (fun x => vr_id x =? recordId)).
  rewrite (filter_unique vr_id _ _ vr Hvr Hin_vr).
  2:{ intros y. rewrite Z.eqb_eq. now rewrite Hid. }
  unfold join at 2. simpl. rewrite app_nil_r.
  rewrite (filter_unique r_id _ _ r Hr Hin_r).
  2:{ intros y. rewrite Z.eqb_eq, Hrid. split; congruence. }
  unfold join. simpl. rewrite app_nil_r.
  rewrite (filter_unique e_id _ _ e He Hin_e).
  2:{ intros y. rewrite Z.eqb_eq, Heid. split; congruence. }
  simpl. now rewrite Ho.
Qed.

Lemma record_check_unknown st recordId :
  (forall vr, In vr (volunteer_roles st) -> vr_id vr <> recordId) ->
  record_check recordId st = [].
Proof.
  intros Hno. unfold record_check.
  rewrite (filter_join_left _ (fun vrr => vr_id (fst vrr) =? recordId)).
  rewrite (filter_join_left _ (fun x => vr_id x =? recordId)).
  rewrite filter_none; [reflexivity|].
  intros vr Hvr. apply Z.eqb_neq. now apply Hno.
Qed.

Lemma event_check_owner st eventId o :
  keys_unique st -> organizer_of_event st eventId o ->
  event_check eventId st = [o].
Proof.
  intros (_ & _ & He) (e & Hin & Hid & Ho). unfold event_check.
  rewrite (filter_unique e_id _ _ e He Hin).
  - simpl. now rewrite Ho.
  - intros y. rewrite Z.eqb_eq. now rewrite Hid.
Qed.

(** The attendance update changes no key and no role reference, so the
    ownership lookup gives the same rows after it. *)
Lemma record_check_update attended rid recordId st :
  record_check recordId (snd (update_attended attended rid st)) =
  record_check recordId st.
Proof.
  unfold record_check. simpl.
  set (f := fun vr => if vr_id vr =? rid then set_attended attended vr else vr).
  assert (Hid : forall vr, vr_id (f vr) = vr_id vr).
  { intros vr. unfold f. now destruct (vr_id vr =? rid). }
  assert (Hrole : forall vr, vr_role_id (f vr) = vr_role_id vr).
  { intros vr. unfold f. now destruct (vr_id vr =? rid). }
  rewrite (join_map_left _ f).
  2:{ intros a b. now rewrite Hrole. }
  rewrite (join_map_left _ (fun t => (f (fst t), snd t))).
  2:{ intros a b. reflexivity. }
  generalize (join (fun (vrr : volunteer_role * role) (e : event) =>
                      r_event_id (snd vrr) =? e_id e)
                (join (fun (vr : volunteer_role) (r : role) =>
                         vr_role_id vr =? r_id r)
                   (volunteer_roles st) (roles st)) (events st)).
  intros l. induction l as [|t l IH]; simpl; [reflexivity|].
  rewrite Hid. destruct (vr_id (fst (fst t)) =? recordId); simpl; now rewrite IH.
Qed.

(** ** Keys stay unique *)

Lemma fresh_keys_snoc keys seq :
  fresh_keys keys seq -> fresh_keys (keys ++ [seq]) (seq + 1).
Proof.
  intros [Hnd Hlt]. split.
  - induction keys as [|k keys IH]; simpl.
    + repeat constructor. simpl. tauto.
    + inversion Hnd as [|k' ks Hnotin Hnd']; subst.
      inversion Hlt as [|k' ks Hk Hlt']; subst.
      constructor; [|now apply IH].
      rewrite in_app_iff. simpl. intros [Hin | [Heq | []]]; [contradiction | lia].
  - apply Forall_app. split.
    + eapply Forall_impl; [|exact Hlt]. simpl. intros k Hk. lia.
    + repeat constructor. lia.
Qed.

Lemma fresh_keys_mono keys seq seq' :
  fresh_keys keys seq -> seq <= seq' -> fresh_keys keys seq'.
Proof.
  intros [Hnd Hlt] Hle. split; [assumption|].
  eapply Forall_impl; [|exact Hlt]. simpl. intros k Hk. lia.
Qed.

Lemma seq_le_refl st : seq_le st st.
Proof. unfold seq_le. lia. Qed.

Lemma seq_le_trans st1 st2 st3 : seq_le st1 st2 -> seq_le st2 st3 -> seq_le st1 st3.
Proof. unfold seq_le. lia. Qed.

Lemma wf_keys_unique st : wf st -> keys_unique st.
Proof. intros ([He _] & [Hr _] & [Hvr _]). now repeat split. Qed.

Lemma wf_empty_db : wf empty_db.
Proof. repeat split; constructor. Qed.

Lemma wf_insert_event o b st :
  wf st -> wf (snd (insert_event o b st)) /\ seq_le st (snd (insert_event o b st)).
Proof.
  intros (He & Hr & Hvr). split.
  - repeat split; simpl; try apply Hr; try apply Hvr;
      rewrite map_app; now apply fresh_keys_snoc.
  - unfold seq_le. simpl. lia.
Qed.

Lemma wf_insert_role eid rb st :
  wf st -> wf (snd (insert_role eid rb st)) /\ seq_le st (snd (insert_role eid rb st)).
Proof.
  intros (He & Hr & Hvr). split.
  - repeat split; simpl; try apply He; try apply Hvr;
      rewrite map_app; now apply fresh_keys_snoc.
  - unfold seq_le. simpl. lia.
Qed.

Lemma wf_insert_volunteer_role vid rid st :
  wf st -> wf (snd (insert_volunteer_role vid rid st)).
Proof.
  intros (He & Hr & Hvr).
  repeat split; simpl; try apply He; try apply Hr;
    rewrite map_app; now apply fresh_keys_snoc.
Qed.

Lemma wf_update_attended attended recordId st :
  wf st -> wf (snd (update_attended attended recordId st)).
Proof.
  intros (He & Hr & Hvr). unfold wf. simpl. rewrite map_map.
  rewrite (map_ext _ vr_id).
  - split; [exact He | split; [exact Hr | exact Hvr]].
  - intros vr. now destruct (vr_id vr =? recordId).
Qed.

Lemma wf_rollback st cur : wf st -> seq_le st cur -> wf (rollback st cur).
Proof.
  intros (He & Hr & Hvr) (Hse & Hsr & Hsvr). unfold wf. simpl.
  repeat split; try apply He; try apply Hr; try apply Hvr.
  - eapply fresh_keys_mono; eassumption.
  - eapply fresh_keys_mono; eassumption.
  - eapply fresh_keys_mono; eassumption.
Qed.

Lemma keeps_refl st : wf st -> keeps st st.
Proof. intros Hwf. split; [assumption | apply seq_le_refl]. Qed.

Lemma keeps_trans st1 st2 st3 : keeps st1 st2 -> keeps st2 st3 -> keeps st1 st3.
Proof.
  intros [_ H12] [Hwf H23]. split; [assumption|].
  eapply seq_le_trans; eassumption.
Qed.

Lemma keeps_bind {A B} (c : Q A) (k : A -> Q B) st :
  keeps st (outcome_db (c st)) ->
  (forall a st1, wf st1 -> keeps st1 (outcome_db (k a st1))) ->
  keeps st (outcome_db (bind c k st)).
Proof.
  intros Hc Hk. unfold bind. destruct (c st) as [a st1|st1]; simpl in *.
  - eapply keeps_trans; [exact Hc|]. apply Hk. apply Hc.
  - exact Hc.
Qed.

Lemma keeps_query {A} rej k (run : db -> A * db) st :
  wf st -> keeps st (snd (run st)) ->
  keeps st (outcome_db (query rej k run st)).
Proof.
  intros Hwf Hrun. unfold query. destruct (rej k); simpl.
  - now apply keeps_refl.
  - destruct (run st). exact Hrun.
Qed.

Lemma wf_insert_roles rej eid rs : forall k st,
  wf st -> keeps st (outcome_db (insert_roles rej k eid rs st)).
Proof.
  induction rs as [|[rb|] rs IH]; intros k st Hwf; simpl.
  - now apply keeps_refl.
  - apply keeps_bind.
    + apply keeps_query; [assumption|]. now apply wf_insert_role.
    + intros _ st1 Hwf1. now apply IH.
  - now apply keeps_refl.
Qed.

Lemma wf_createEvent_try rej u b st :
  wf st -> keeps st (outcome_db (createEvent_try rej u b st)).
Proof.
  intros Hwf. unfold createEvent_try.
  apply keeps_bind.
  { apply keeps_query; [assumption | now apply keeps_refl]. }
  intros _ st1 Hwf1. apply keeps_bind.
  { apply keeps_query; [assumption | now apply wf_insert_event]. }
  intros newEvent st2 Hwf2.
  destruct (req_roles b) as [rs|]; [|now apply keeps_refl].
  apply keeps_bind; [now apply wf_insert_roles|].
  intros _ st3 Hwf3. apply keeps_bind.
  { apply keeps_query; [assumption | now apply keeps_refl]. }
  intros _ st4 Hwf4. now apply keeps_refl.
Qed.

(** Every handler keeps the keys of every table distinct: the stores the
    server reaches from the empty one have unique keys. *)
Lemma createEvent_wf rej u b st : wf st -> wf (snd (createEvent rej u b st)).
Proof.
  intros Hwf. unfold createEvent.
  destruct (negb (String.eqb (userType u) "org")); [assumption|].
  destruct (wf_createEvent_try rej u b st Hwf) as [Hwf1 Hle1].
  destruct (createEvent_try rej u b st); simpl in *; [assumption|].
  now apply wf_rollback.
Qed.

Lemma signup_step_wf t st : wf st -> wf (snd (signup_step t st)).
Proof.
  intros Hwf. destruct t as [rej u rid | rej u rid | r]; simpl.
  - destruct (negb (String.eqb (userType u) "volunteer")); [assumption|].
    unfold query, select. destruct (rej 0%nat); [assumption|].
    now destruct (0 <? List.length (existing_signup (userId u) rid st))%nat.
  - unfold query. destruct (rej 1%nat); simpl; [assumption|].
    now apply wf_insert_volunteer_role.
  - assumption.
Qed.

Lemma run_schedule_wf sched : forall ts st,
  wf st -> wf (snd (run_schedule sched ts st)).
Proof.
  induction sched as [|i sched IH]; intros ts st Hwf; simpl; [assumption|].
  destruct (nth_error ts i) as [t|]; [|now apply IH].
  pose proof (signup_step_wf t st Hwf) as Hwf1.
  destruct (signup_step t st) as [t' st1]. now apply IH.
Qed.

Lemma signup_wf rej u rid st : wf st -> wf (snd (signup rej u rid st)).
Proof.
  intros Hwf.
  pose proof (run_schedule_wf [0; 0]%nat [Arrived rej u rid] st Hwf) as H.
  now rewrite run_alone in H.
Qed.

Lemma setAttendance_wf rej u recordId attended st :
  wf st -> wf (snd (setAttendance rej u recordId attended st)).
Proof.
  intros Hwf.
  unfold setAttendance, setAttendance_try, bind, query, select.
  destruct (rej 0%nat); [assumption|]. simpl.
  destruct (record_check recordId st) as [|o rest]; [assumption|].
  destruct (negb (o =? userId u)); [assumption|].
  destruct (rej 1%nat); simpl; [assumption|].
  now apply wf_update_attended.
Qed.

(** ** PATCH /api/attendance/:recordId *)

Lemma setAttendance_refused rej u recordId attended st :
  rej 0%nat = false ->
  (record_check recordId st = [] \/
   exists o rest, record_check recordId st = o :: rest /\ o <> userId u) ->
  setAttendance rej u recordId attended st = (sendStatus 403, st).
Proof.
  intros H0 H.
  unfold setAttendance, setAttendance_try, bind, query, select.
  rewrite H0. simpl.
  destruct H as [-> | (o & rest & -> & Hne)]; [reflexivity|].
  apply Z.eqb_neq in Hne. rewrite Hne. reflexivity.
Qed.

Lemma setAttendance_updates rej u recordId attended st rest :
  accepted rej 0 2 ->
  record_check recordId st = userId u :: rest ->
  setAttendance rej u recordId attended st =
    (attendance_updated, snd (update_attended attended recordId st)).
Proof.
  intros Hacc Hown.
  assert (H0 : rej 0%nat = false) by (apply (Hacc 0%nat); lia).
  assert (H1 : rej 1%nat = false) by (apply (Hacc 1%nat); lia).
  unfold setAttendance, setAttendance_try, bind, query, select.
  rewrite H0. simpl. rewrite Hown, Z.eqb_refl. simpl. rewrite H1. reflexivity.
Qed.

Lemma update_attended_twice attended recordId st :
  snd (update_attended attended recordId
         (snd (update_attended attended recordId st))) =
  snd (update_attended attended recordId st).
Proof.
  unfold update_attended. simpl. f_equal.
  rewrite map_map. apply map_ext. intros vr.
  destruct (vr_id vr =? recordId) eqn:Hid; simpl; rewrite Hid; reflexivity.
Qed.

(** ** GET /api/events/:eventId/volunteers *)


Lemma eventVolunteers_listed collate rej u eventId st rest :
  accepted rej 0 2 ->
  event_check eventId st = userId u :: rest ->
  eventVolunteers collate rej u eventId st =
    (json 200 (RosterBody (roster collate eventId st)), st).
Proof.
  intros Hacc Hown.
  assert (H0 : rej 0%nat = false) by (apply (Hacc 0%nat); lia).
  assert (H1 : rej 1%nat = false) by (apply (Hacc 1%nat); lia).
  unfold eventVolunteers, eventVolunteers_try, bind, query, select.
  rewrite H0. simpl. rewrite Hown, Z.eqb_refl. simpl. rewrite H1. reflexivity.
Qed.

Lemma claimed_db_keys : keys_unique claimed_db.
Proof.
  apply wf_keys_unique, signup_wf, createEvent_wf, wf_empty_db.
Qed.

Lemma claimed_db_owner : organizer_of_record claimed_db 1 7.
Proof.
  exists (claim_row 1 5 1), (role_of_body 1 1 setup2),
         (new_event org7 (fair (Some [setup2])) empty_db).
  simpl. tauto.
Qed.

(** C4, as the claim states it, fails: no claim has key 42, and the owner of
    the fair asking to mark record 42 is answered the bare 403 that
    organization 8 is answered when it asks to mark record 1, which belongs
    to organization 7. *)
Lemma setAttendance_unknown_is_403 :
  filter (fun vr => vr_id vr =? 42) (volunteer_roles claimed_db) = [] /\
  setAttendance accepting org7 42 true claimed_db = (sendStatus 403, claimed_db) /\
  setAttendance accepting org8 1 true claimed_db = (sendStatus 403, claimed_db).
Proof. repeat split; reflexivity. Qed.

(** C4, amended.  For a record id that no claim has, when the store accepts
    the lookup, [setAttendance] answers 403, the answer of an ownership
    mismatch, and the store, with every attended flag, is what it was. *)
Theorem setAttendance_unknown_record rej u recordId attended st :
  rej 0%nat = false ->
  (forall vr, In vr (volunteer_roles st) -> vr_id vr <> recordId) ->
  setAttendance rej u recordId attended st = (sendStatus 403, st).
Proof.
  intros H0 Hno. apply setAttendance_refused; [assumption|].
  left. now apply record_check_unknown.
Qed.

Lemma setAttendance_unknown_record_witness :
  setAttendance accepting org7 42 true claimed_db = (sendStatus 403, claimed_db).
Proof.
  apply setAttendance_unknown_record.
  - reflexivity.
  - intros vr [<-|[]]. simpl. lia.
Defined.



(** C9.  [setAttendance] is idempotent: in a store with unique keys, two
    calls in a row by the organizer of the claim's event, with the same
    value and every statement accepted, are both answered 200, and the
    second leaves the store as the first left it. *)
Theorem setAttendance_idempotent rej1 rej2 u recordId attended st :
  accepted rej1 0 2 -> accepted rej2 0 2 ->
  keys_unique st ->
  organizer_of_record st recordId (userId u) ->
  let once := setAttendance rej1 u recordId attended st in
  let twice := setAttendance rej2 u recordId attended (snd once) in
  fst once = attendance_updated /\
  fst twice = attendance_updated /\
  snd twice = snd once /\
  forall vr, In vr (volunteer_roles (snd once)) -> vr_id vr = recordId ->
    vr_attended vr = attended.
Proof.
  intros Hacc1 Hacc2 Hkeys Hown. cbv zeta.
  pose proof (record_check_chain st recordId (userId u) Hkeys Hown) as Hchk.
  rewrite (setAttendance_updates rej1 u recordId attended st [] Hacc1 Hchk).
  cbn [fst snd].
  rewrite (setAttendance_updates rej2 u recordId attended _ [] Hacc2).
  2:{ now rewrite record_check_update. }
  cbn [fst snd]. rewrite update_attended_twice.
  repeat split.
  intros vr Hin Hid. simpl in Hin. apply in_map_iff in Hin.
  destruct Hin as (vr0 & Heq & _).
  destruct (vr_id vr0 =? recordId) eqn:H0; subst vr; [reflexivity|].
  apply Z.eqb_neq in H0. contradiction.
Qed.

Lemma setAttendance_idempotent_witness :
  fst (setAttendance accepting org7 1 true claimed_db) = attendance_updated /\
  snd (setAttendance accepting org7 1 true
         (snd (setAttendance accepting org7 1 true claimed_db))) =
  snd (setAttendance accepting org7 1 true claimed_db).
Proof.
  destruct (setAttendance_idempotent accepting accepting org7 1 true claimed_db
              (accepted_accepting 0 2) (accepted_accepting 0 2)
              claimed_db_keys claimed_db_owner) as (H1 & _ & H2 & _).
  split; assumption.
Defined.

(** C10.  The two ownership checks compare ids only.  In a store with
    unique keys and with every statement accepted, a caller of any kind
    whose user id is the organizer id reached from the claim, or the
    organizer id of the event, has the attendance update applied (200), or
    is given the roster (200); and the answer to a token does not depend on
    its [userType]. *)
Theorem owner_id_suffices collate rej u st :
  accepted rej 0 2 ->
  keys_unique st ->
  (forall recordId attended,
     organizer_of_record st recordId (userId u) ->
     setAttendance rej u recordId attended st =
       (attendance_updated, snd (update_attended attended recordId st))) /\
  (forall eventId,
     organizer_of_event st eventId (userId u) ->
     eventVolunteers collate rej u eventId st =
       (json 200 (RosterBody (roster collate eventId st)), st)) /\
  (forall kind recordId attended,
     setAttendance rej {| userId := userId u; userType := kind |}
       recordId attended st =
     setAttendance rej u recordId attended st) /\
  (forall kind eventId,
     eventVolunteers collate rej {| userId := userId u; userType := kind |} eventId st =
     eventVolunteers collate rej u eventId st).
Proof.
  intros Hacc Hkeys. repeat split.
  - intros recordId attended Hown.
    apply (setAttendance_updates rej u recordId attended st []); [assumption|].
    now apply record_check_chain.
  - intros eventId Hown.
    apply (eventVolunteers_listed collate rej u eventId st []); [assumption|].
    now apply event_check_owner.
Qed.

Lemma owner_id_suffices_witness :
  setAttendance accepting vol7 1 true claimed_db =
    (attendance_updated, snd (update_attended true 1 claimed_db)) /\
  eventVolunteers String.compare accepting vol7 1 claimed_db =
    (json 200 (RosterBody (roster String.compare 1 claimed_db)), claimed_db).
Proof.
  destruct (owner_id_suffices String.compare accepting vol7 claimed_db
              (accepted_accepting 0 2) claimed_db_keys)
    as (Hset & Hlist & _).
  split.
  - apply Hset. exact claimed_db_owner.
  - apply Hlist.
    exists (new_event org7 (fair (Some [setup2])) empty_db). simpl. tauto.
Defined.

(** ** ORDER BY *)

Section OrderByFacts.
Context {A : Type} (le : A -> A -> bool).

Lemma place_perm x l : Permutation (place le x l) (x :: l).
Proof.
  induction l as [|y l IH]; simpl; [reflexivity|].
  destruct (le x y); [reflexivity|].
  rewrite IH. apply perm_swap.
Qed.

Lemma order_by_perm l : Permutation (order_by le l) l.
Proof.
  induction l as [|x l IH]; simpl; [reflexivity|].
  rewrite place_perm. now constructor.
Qed.

Hypothesis le_total : forall a b, le a b = false -> le b a = true.

Let ordered (a b : A) : Prop := le a b = true.

Lemma place_sorted x l : Sorted ordered l -> Sorted ordered (place le x l).
Proof.
  induction l as [|y l IH]; intros Hs; simpl.
  - repeat constructor.
  - destruct (le x y) eqn:Hxy.
    + constructor; [assumption|]. now constructor.
    + inversion Hs as [|y' l' Hs' Hhd]; subst.
      constructor; [now apply IH|].
      destruct l as [|z l]; simpl.
      * constructor. now apply le_total.
      * destruct (le x z).
        -- constructor. now apply le_total.
        -- inversion Hhd; subst. now constructor.
Qed.

Lemma order_by_sorted l : Sorted ordered (order_by le l).
Proof.
  induction l as [|x l IH]; simpl; [constructor|].
  now apply place_sorted.
Qed.
End OrderByFacts.

Lemma Sorted_map {A B} (R : A -> A -> Prop) (S : B -> B -> Prop) (f : A -> B) l :
  (forall a b, R a b -> S (f a) (f b)) ->
  Sorted R l -> Sorted S (map f l).
Proof.
  intros HRS. induction 1 as [|x l Hs IH Hhd]; simpl; constructor.
  - assumption.
  - destruct Hhd; simpl; constructor. now apply HRS.
Qed.

Lemma filter_and {A} (p q : A -> bool) l :
  filter (fun x => p x && q x) l = filter q (filter p l).
Proof.
  induction l as [|x l IH]; simpl; [reflexivity|].
  destruct (p x); simpl; [|assumption].
  destruct (q x); now rewrite IH.
Qed.

(** ** GET /api/volunteer/profile *)

Lemma in_claims_of vid st e r vr :
  In (e, r, vr) (claims_of vid st) <->
  In e (events st) /\ In r (roles st) /\ In vr (volunteer_roles st) /\
  r_event_id r = e_id e /\ vr_role_id vr = r_id r /\ vr_volunteer_id vr = vid.
Proof.
  unfold claims_of, events_roles_claims.
  rewrite filter_In, in_join, in_join. unfold a_claim. simpl.
  rewrite !Z.eqb_eq. tauto.
Qed.

Lemma upcoming_events_spec now vid st :
  Permutation (upcoming_events now vid st)
    (map upcoming_row (filter (starts_after now) (claims_of vid st))) /\
  Sorted Z.le (map row_date (upcoming_events now vid st)).
Proof.
  unfold upcoming_events, claims_of. split.
  - apply Permutation_map. rewrite order_by_perm.
    now rewrite (filter_and (fun t => vr_volunteer_id (a_claim t) =? vid)
                            (starts_after now)).
  - rewrite map_map.
    apply (Sorted_map (fun a b => date_asc a b = true)).
    + intros a b H. unfold date_asc in H. apply Z.leb_le in H. exact H.
    + apply order_by_sorted. intros a b H. unfold date_asc in *.
      apply Z.leb_gt in H. apply Z.leb_le. lia.
Qed.

Lemma past_events_spec now vid st :
  Permutation (past_events now vid st)
    (map past_row (filter (started_by now) (claims_of vid st))) /\
  Sorted Z.ge (map row_date (past_events now vid st)).
Proof.
  unfold past_events, claims_of. split.
  - apply Permutation_map. rewrite order_by_perm.
    now rewrite (filter_and (fun t => vr_volunteer_id (a_claim t) =? vid)
                            (started_by now)).
  - rewrite map_map.
    apply (Sorted_map (fun a b => date_desc a b = true)).
    + intros a b H. unfold date_desc in H. apply Z.leb_le in H.
      unfold row_date. simpl. lia.
    + apply order_by_sorted. intros a b H. unfold date_desc in *.
      apply Z.leb_gt in H. apply Z.leb_le. lia.
Qed.

Lemma volunteerProfile_accepted rej now u st :
  userType u = "volunteer" ->
  accepted rej 0 2 ->
  volunteerProfile rej now u st =
    (json 200
       (ProfileBody
          (upcoming_events (now 0%nat) (userId u) st)
          (past_events (now 1%nat) (userId u) st)
          (List.length
             (filter pr_attended (past_events (now 1%nat) (userId u) st)))
          (List.length
             (filter pr_attended (past_events (now 1%nat) (userId u) st)) * 3)),
     st).
Proof.
  intros Hu Hacc.
  assert (H0 : rej 0%nat = false) by (apply (Hacc 0%nat); lia).
  assert (H1 : rej 1%nat = false) by (apply (Hacc 1%nat); lia).
  unfold volunteerProfile, volunteerProfile_try, bind, query, select.
  rewrite Hu, H0. simpl. rewrite H1. reflexivity.
Qed.






Lemma attended_count_filter rows :
  List.length (filter pr_attended rows) = attended_count rows.
Proof.
  induction rows as [|r rows IH]; simpl; [reflexivity|].
  destruct (pr_attended r); simpl; now rewrite IH.
Qed.

(** C8.  For a volunteer, with both queries accepted, the profile is
    answered 200 with [past] the rows of the past query, [totalEvents] the
    number of entries of [past] whose attended flag is true, and
    [totalHours] three times [totalEvents]; and whatever the caller, the
    store and the statements rejected, an answer that carries a profile
    carries these two numbers. *)
Theorem volunteerProfile_stats rej now u st :
  (userType u = "volunteer" -> accepted rej 0 2 ->
   exists upcoming past totalEvents totalHours,
     volunteerProfile rej now u st =
       (json 200 (ProfileBody upcoming past totalEvents totalHours), st) /\
     past = past_events (now 1%nat) (userId u) st /\
     totalEvents = attended_count past /\
     totalHours = (totalEvents * 3)%nat) /\
  (forall upcoming past totalEvents totalHours,
     payload (fst (volunteerProfile rej now u st)) =
       ProfileBody upcoming past totalEvents totalHours ->
     totalEvents = attended_count past /\
     totalHours = (totalEvents * 3)%nat).
Proof.
  split.
  - intros Hu Hacc. rewrite (volunteerProfile_accepted rej now u st Hu Hacc).
    do 4 eexists. split; [reflexivity|].
    split; [reflexivity|]. split; [apply attended_count_filter | reflexivity].
  - intros upcoming past n h.
    unfold volunteerProfile, volunteerProfile_try, bind, query, select.
    destruct (negb (String.eqb (userType u) "volunteer")); [discriminate|].
    destruct (rej 0%nat); [discriminate|]. simpl.
    destruct (rej 1%nat); [discriminate|]. simpl.
    intros H. injection H as _ <- <- <-.
    split; [apply attended_count_filter | reflexivity].
Qed.

Lemma volunteerProfile_stats_witness :
  exists upcoming past,
    volunteerProfile accepting (fun _ => 200) vol5 attended_db =
      (json 200 (ProfileBody upcoming past 1 3), attended_db).
Proof.
  destruct (proj1 (volunteerProfile_stats accepting (fun _ => 200) vol5
                     attended_db) eq_refl (accepted_accepting 0 2))
    as (upcoming & past & n & h & Hrun & Hpast & Hn & Hh).
  exists upcoming, past. rewrite Hrun. subst h n past. reflexivity.
Defined.

(** ** The middleware *)

Lemma bearer_token_examples :
  bearer None = None /\
  bearer (Some EmptyString) = None /\
  bearer (Some "Bearer") = None /\
  bearer (Some "Bearer ") = None /\
  bearer (Some "Bearer abc.def") = Some "abc.def".
Proof. repeat split. Qed.

Lemma authenticateToken_cases jwt_verify authHeader next st :
  authenticateToken jwt_verify authHeader next st =
    match bearer authHeader with
    | None => (sendStatus 401, st)
    | Some token =>
        match jwt_verify token with
        | None => (sendStatus 403, st)
        | Some u => next u st
        end
    end.
Proof. reflexivity. Qed.

(** Behind a verified token, a route is its handler run for the payload of
    the token. *)
Lemma patch_attendance_verified jwt_verify rej authHeader token u recordId attended st :
  bearer authHeader = Some token -> jwt_verify token = Some u ->
  patch_attendance jwt_verify rej authHeader recordId attended st =
    setAttendance rej u recordId attended st.
Proof.
  intros Hb Hv. unfold patch_attendance, authenticateToken. now rewrite Hb, Hv.
Qed.

Lemma routes_refuse_without_token jwt_verify collate rej now authHeader st :
  bearer authHeader = None ->
  (forall b, post_events jwt_verify rej authHeader b st = (sendStatus 401, st)) /\
  (forall rid, post_signup jwt_verify rej authHeader rid st = (sendStatus 401, st)) /\
  get_profile jwt_verify rej now authHeader st = (sendStatus 401, st) /\
  (forall eid, get_event_volunteers jwt_verify collate rej authHeader eid st =
                 (sendStatus 401, st)) /\
  (forall rid a, patch_attendance jwt_verify rej authHeader rid a st =
                   (sendStatus 401, st)).
Proof.
  intros Hb.
  unfold post_events, post_signup, get_profile, get_event_volunteers,
    patch_attendance, authenticateToken.
  rewrite Hb. repeat split.
Qed.

(** * Further properties *)

(** ** Signups one after the other *)

(** X1.  [n+1] signups of one volunteer for one role, run one after the
    other on a store where the pair has no row and which accepts every
    statement: the first is answered 201, each later one 400, and the
    table ends with exactly one more row, the claim of the pair. *)
Theorem signups_in_turn_one_claim n u rid st :
  userType u = "volunteer" ->
  existing_signup (userId u) rid st = [] ->
  fst (signup_in_turn (S n) u rid st) =
    signed_up :: repeat already_signed_up n /\
  volunteer_roles (snd (signup_in_turn (S n) u rid st)) =
    volunteer_roles st ++
    [claim_row (volunteer_roles_id_seq st) (userId u) rid].
Proof.
  intros Hu Hex. simpl.
  destruct (signup_accepted accepting u rid st Hu (accepted_accepting 0 2))
    as [_ Hnew].
  destruct (Hnew Hex) as [Hr Hrows].
  destruct (signup accepting u rid st) as [r st1]. simpl in Hr, Hrows. subst r.
  rewrite signup_in_turn_duplicates; [now split | assumption |].
  unfold existing_signup. rewrite Hrows, existing_signup_app, Hex. simpl.
  rewrite !Z.eqb_refl. discriminate.
Qed.

Lemma signups_in_turn_one_claim_witness :
  fst (signup_in_turn 3 vol5 1 fair_db) =
    [signed_up; already_signed_up; already_signed_up] /\
  volunteer_roles (snd (signup_in_turn 3 vol5 1 fair_db)) = [claim_row 1 5 1].
Proof.
  apply (signups_in_turn_one_claim 2 vol5 1 fair_db); reflexivity.
Defined.

(** ** Signup and the headcount *)

Lemma claims_after_insert vid rid rid' st :
  List.length
    (filter (fun vr => vr_role_id vr =? rid')
       (volunteer_roles (snd (insert_volunteer_role vid rid st)))) =
  Nat.add
    (List.length (filter (fun vr => vr_role_id vr =? rid') (volunteer_roles st)))
    (if rid =? rid' then 1%nat else 0%nat).
Proof.
  simpl. rewrite filter_app, length_app. simpl.
  destruct (rid =? rid'); reflexivity.
Qed.

(** X2.  A signup never looks at the role's headcount or at the number of
    claims the role has: for a volunteer with no claim on the role, when the
    store accepts both statements, the answer is 201, the count of claims
    of that role shown by the event detail grows by one and the count of
    every other role stays; and the answer of a signup is the same in two
    stores that have the same claims. *)
Theorem signup_ignores_headcount rej u rid s :
  userType u = "volunteer" ->
  accepted rej 0 2 ->
  existing_signup (userId u) rid (tables s) = [] ->
  fst (on_tables (signup rej u rid) s) = signed_up /\
  (forall r,
     current_volunteers (snd (on_tables (signup rej u rid) s)) r =
     Nat.add (current_volunteers s r)
             (if rid =? r_id r then 1%nat else 0%nat)) /\
  (forall st',
     volunteer_roles st' = volunteer_roles (tables s) ->
     fst (signup rej u rid st') = signed_up).
Proof.
  intros Hu Hacc Hex.
  assert (H0 : rej 0%nat = false) by (apply (Hacc 0%nat); lia).
  assert (H1 : rej 1%nat = false) by (apply (Hacc 1%nat); lia).
  assert (Hrun : forall st', volunteer_roles st' = volunteer_roles (tables s) ->
            signup rej u rid st' =
              (signed_up, snd (insert_volunteer_role (userId u) rid st'))).
  { intros st' Hsame.
    unfold existing_signup in Hex. rewrite <- Hsame in Hex.
    unfold signup, signup_try, bind, query, select. rewrite Hu, H0. simpl.
    unfold existing_signup. rewrite Hex. simpl. rewrite H1.
    reflexivity. }
  unfold on_tables. rewrite (Hrun (tables s) eq_refl). cbn [fst snd].
  repeat split.
  - intros r. unfold current_volunteers. cbn [tables].
    apply claims_after_insert.
  - intros st' Hsame. now rewrite (Hrun st' Hsame).
Qed.

Lemma signup_ignores_headcount_witness :
  map r_required_volunteers (roles full_db) = [2; 2] /\
  List.length (filter (fun vr => vr_role_id vr =? 1) (volunteer_roles full_db))
    = 2%nat /\
  fst (signup accepting vol9 1 full_db) = signed_up.
Proof.
  split; [reflexivity|]. split; [reflexivity|].
  destruct (signup_ignores_headcount accepting vol9 1
              {| organizations := []; organizations_id_seq := 1;
                 volunteers_id_seq := 1; tables := full_db |}
              eq_refl (accepted_accepting 0 2) eq_refl) as (_ & _ & Hsame).
  apply Hsame. reflexivity.
Defined.

(** ** What an attendance update touches *)

(** X3.  Whatever the caller, the record and the statements rejected,
    [setAttendance] leaves the volunteers, the events and the roles as they
    were, keeps the key, the volunteer and the role of every claim, in the
    same order, and leaves every claim whose key is not [recordId] as it
    was. *)
Theorem setAttendance_frame rej u recordId attended st :
  let st' := snd (setAttendance rej u recordId attended st) in
  volunteers st' = volunteers st /\
  events st' = events st /\
  roles st' = roles st /\
  map vr_id (volunteer_roles st') = map vr_id (volunteer_roles st) /\
  map vr_volunteer_id (volunteer_roles st') =
    map vr_volunteer_id (volunteer_roles st) /\
  map vr_role_id (volunteer_roles st') = map vr_role_id (volunteer_roles st) /\
  filter (fun vr => negb (vr_id vr =? recordId)) (volunteer_roles st') =
    filter (fun vr => negb (vr_id vr =? recordId)) (volunteer_roles st).
Proof.
  cbv zeta.
  unfold setAttendance, setAttendance_try, bind, query, select.
  destruct (rej 0%nat); [now repeat split|]. simpl.
  destruct (record_check recordId st) as [|o rest]; [now repeat split|].
  destruct (negb (o =? userId u)); [now repeat split|].
  destruct (rej 1%nat); [now repeat split|]. simpl.
  repeat split.
  - rewrite map_map. apply map_ext. intros vr.
    now destruct (vr_id vr =? recordId).
  - rewrite map_map. apply map_ext. intros vr.
    now destruct (vr_id vr =? recordId).
  - rewrite map_map. apply map_ext. intros vr.
    now destruct (vr_id vr =? recordId).
  - induction (volunteer_roles st) as [|vr l IH]; simpl; [reflexivity|].
    destruct (vr_id vr =? recordId) eqn:Hid; simpl; rewrite Hid; simpl.
    + exact IH.
    + now rewrite IH.
Qed.

Lemma update_attended_overwrites a b recordId st :
  snd (update_attended b recordId (snd (update_attended a recordId st))) =
  snd (update_attended b recordId st).
Proof.
  unfold update_attended. simpl. f_equal.
  rewrite map_map. apply map_ext. intros vr.
  destruct (vr_id vr =? recordId) eqn:Hid; simpl; rewrite Hid; reflexivity.
Qed.

(** X4.  The last attendance update wins: in a store with unique keys, two
    calls in a row by the organizer of the claim's event, every statement
    accepted, are both answered 200, and the store after them is the store
    after the second call alone. *)
Theorem setAttendance_last_wins rej1 rej2 u recordId a b st :
  accepted rej1 0 2 -> accepted rej2 0 2 ->
  keys_unique st ->
  organizer_of_record st recordId (userId u) ->
  fst (setAttendance rej1 u recordId a st) = attendance_updated /\
  setAttendance rej2 u recordId b (snd (setAttendance rej1 u recordId a st)) =
    (attendance_updated, snd (setAttendance rej2 u recordId b st)).
Proof.
  intros Hacc1 Hacc2 Hkeys Hown.
  pose proof (record_check_chain st recordId (userId u) Hkeys Hown) as Hchk.
  rewrite (setAttendance_updates rej1 u recordId a st [] Hacc1 Hchk).
  rewrite (setAttendance_updates rej2 u recordId b st [] Hacc2 Hchk).
  cbn [fst snd]. split; [reflexivity|].
  rewrite (setAttendance_updates rej2 u recordId b _ [] Hacc2).
  - now rewrite update_attended_overwrites.
  - now rewrite record_check_update.
Qed.

Lemma setAttendance_last_wins_witness :
  setAttendance accepting org7 1 false
    (snd (setAttendance accepting org7 1 true claimed_db)) =
  (attendance_updated, snd (setAttendance accepting org7 1 false claimed_db)).
Proof.
  apply (setAttendance_last_wins accepting accepting org7 1 true false claimed_db
           (accepted_accepting 0 2) (accepted_accepting 0 2)
           claimed_db_keys claimed_db_owner).
Defined.

(** ** The roster *)

Lemma role_then_name_total collate a b :
  (forall x y, collate y x = CompOpp (collate x y)) ->
  role_then_name collate a b = false -> role_then_name collate b a = true.
Proof.
  intros Hanti. unfold role_then_name.
  rewrite (Hanti (r_name (snd a)) (r_name (snd b))).
  rewrite (Hanti (v_name (fst (fst a))) (v_name (fst (fst b)))).
  destruct (collate (r_name (snd a)) (r_name (snd b))); simpl;
    try discriminate; try reflexivity.
  destruct (collate (v_name (fst (fst a))) (v_name (fst (fst b)))); simpl;
    try discriminate; reflexivity.
Qed.

Lemma role_then_name_ordered collate a b :
  role_then_name collate a b = true ->
  roster_ordered collate (roster_row_of a) (roster_row_of b).
Proof.
  unfold role_then_name, roster_ordered. simpl.
  destruct (collate (r_name (snd a)) (r_name (snd b))) eqn:Hc.
  - intros Hle. right. split; [reflexivity|].
    destruct (collate (v_name (fst (fst a))) (v_name (fst (fst b))));
      discriminate.
  - intros _. now left.
  - discriminate.
Qed.

Lemma in_roster collate row eventId st :
  In row (roster collate eventId st) <->
  exists v vr r,
    In v (volunteers st) /\ In vr (volunteer_roles st) /\ In r (roles st) /\
    v_id v = vr_volunteer_id vr /\ vr_role_id vr = r_id r /\
    r_event_id r = eventId /\ row = roster_row_of (v, vr, r).
Proof.
  unfold roster. rewrite in_map_iff. split.
  - intros ([[v vr] r] & <- & Hin).
    apply (Permutation_in _ (order_by_perm _ _)) in Hin.
    apply filter_In in Hin. destruct Hin as [Hin Hev].
    apply in_join in Hin. destruct Hin as (Hvvr & Hr & Hon).
    apply in_join in Hvvr. destruct Hvvr as (Hv & Hvr & Hon').
    simpl in *. apply Z.eqb_eq in Hev, Hon, Hon'.
    exists v, vr, r. repeat split; assumption.
  - intros (v & vr & r & Hv & Hvr & Hr & Hid & Hrole & Hev & ->).
    exists (v, vr, r). split; [reflexivity|].
    apply (Permutation_in _ (Permutation_sym (order_by_perm _ _))).
    apply filter_In. split; [|now apply Z.eqb_eq].
    apply in_join. repeat split; [|assumption|now apply Z.eqb_eq].
    apply in_join. repeat split; [assumption|assumption|now apply Z.eqb_eq].
Qed.

Lemma in_roster_enrolments collate eventId st v vr r :
  In (v, vr, r) (roster_enrolments collate eventId st) <->
  In v (volunteers st) /\ In vr (volunteer_roles st) /\ In r (roles st) /\
  v_id v = vr_volunteer_id vr /\ vr_role_id vr = r_id r /\
  r_event_id r = eventId.
Proof.
  unfold roster_enrolments. split.
  - intros Hin. apply (Permutation_in _ (order_by_perm _ _)) in Hin.
    apply filter_In in Hin. destruct Hin as [Hin Hev].
    apply in_join in Hin. destruct Hin as (Hvvr & Hr & Hon).
    apply in_join in Hvvr. destruct Hvvr as (Hv & Hvr & Hon').
    simpl in *. apply Z.eqb_eq in Hev, Hon, Hon'. tauto.
  - intros (Hv & Hvr & Hr & Hid & Hrole & Hev).
    apply (Permutation_in _ (Permutation_sym (order_by_perm _ _))).
    apply filter_In. split; [|now apply Z.eqb_eq].
    apply in_join. repeat split; [|assumption|now apply Z.eqb_eq].
    apply in_join. repeat split; [assumption|assumption|now apply Z.eqb_eq].
Qed.

(** X5.  The roster of an event is one row for each entry of a list of
    (volunteer, claim, role) rows of the tables, with the volunteer's key,
    name and email, the role name, the attended flag and the claim's key.
    The list holds exactly the claims on a role of the event whose
    volunteer has a row (a claim of a volunteer without a row is left out);
    when the keys of the four tables are unique no claim is listed twice;
    and when the collation of the store is antisymmetric the rows are in the
    order of the role names and, within a role name, of the volunteer
    names under that collation. *)
Theorem roster_rows_and_order collate eventId st :
  exists enrolments : list enrolment,
    roster collate eventId st =
      map (fun t =>
             {| ro_id := v_id (fst (fst t));
                ro_name := v_name (fst (fst t));
                ro_email := v_email (fst (fst t));
                ro_role_name := r_name (snd t);
                ro_attended := vr_attended (snd (fst t));
                ro_record_id := vr_id (snd (fst t)) |})
          enrolments /\
    (forall v vr r,
       In (v, vr, r) enrolments <->
       In v (volunteers st) /\ In vr (volunteer_roles st) /\
       In r (roles st) /\
       v_id v = vr_volunteer_id vr /\ vr_role_id vr = r_id r /\
       r_event_id r = eventId) /\
    (keys_unique st -> NoDup (map v_id (volunteers st)) ->
     NoDup (map (fun t => vr_id (snd (fst t))) enrolments)) /\
    ((forall x y, collate y x = CompOpp (collate x y)) ->
     Sorted (roster_ordered collate) (roster collate eventId st)).
Proof.
  exists (roster_enrolments collate eventId st).
  split; [reflexivity|]. split; [|split].
  - intros v vr r. apply in_roster_enrolments.
  - intros (Hvr & Hr & _) Hv.
    apply NoDup_map_on.
    + unfold roster_enrolments.
      apply (Permutation_NoDup (Permutation_sym (order_by_perm _ _))).
      apply NoDup_filter. apply join_NoDup.
      * apply join_NoDup; eapply NoDup_map_inv; eassumption.
      * eapply NoDup_map_inv; eassumption.
    + intros [[v1 vr1] r1] [[v2 vr2] r2] H1 H2 Hk. simpl in Hk.
      apply in_roster_enrolments in H1, H2.
      destruct H1 as (Hv1 & Hvr1 & Hr1 & Hid1 & Hrole1 & _).
      destruct H2 as (Hv2 & Hvr2 & Hr2 & Hid2 & Hrole2 & _).
      assert (vr1 = vr2)
        by (apply (unique_by_key vr_id (volunteer_roles st)); assumption).
      subst vr2.
      assert (v1 = v2)
        by (apply (unique_by_key v_id (volunteers st)); congruence).
      assert (r1 = r2)
        by (apply (unique_by_key r_id (roles st)); congruence).
      now subst.
  - intros Hanti. unfold roster.
    apply (Sorted_map (fun a b => role_then_name collate a b = true)).
    + apply role_then_name_ordered.
    + apply order_by_sorted. intros a b.
      now apply role_then_name_total.
Qed.

Lemma roster_rows_and_order_witness :
  exists enrolments : list enrolment,
    map (fun t => vr_id (snd (fst t))) enrolments =
      map ro_record_id (roster String.compare 1 eve_db) /\
    NoDup (map (fun t => vr_id (snd (fst t))) enrolments) /\
    Sorted (roster_ordered String.compare) (roster String.compare 1 eve_db).
Proof.
  destruct (roster_rows_and_order String.compare 1 eve_db)
    as (enrolments & Hrows & _ & Hnodup & Hsorted).
  exists enrolments. split; [|split].
  - rewrite Hrows, map_map. reflexivity.
  - apply Hnodup; [exact claimed_db_keys|].
    simpl. repeat constructor. simpl. tauto.
  - apply Hsorted. intros x y. apply String.compare_antisym.
Defined.

(** X6.  The coordinator's flow: in a store with unique keys, the record id
    of every row of the roster of an event can be marked by the organizer of
    that event; with both statements accepted the answer is 200 and the
    update is applied. *)
Theorem listed_record_can_be_marked collate rej u eventId attended st row :
  accepted rej 0 2 ->
  keys_unique st ->
  organizer_of_event st eventId (userId u) ->
  In row (roster collate eventId st) ->
  setAttendance rej u (ro_record_id row) attended st =
    (attendance_updated,
     snd (update_attended attended (ro_record_id row) st)).
Proof.
  intros Hacc Hkeys (e & He & Heid & Ho) Hrow.
  apply in_roster in Hrow.
  destruct Hrow as (v & vr & r & _ & Hvr & Hr & _ & Hrole & Hev & ->).
  simpl.
  apply (setAttendance_updates rej u (vr_id vr) attended st []); [assumption|].
  apply record_check_chain; [assumption|].
  exists vr, r, e. repeat split; try assumption; congruence.
Qed.

Lemma listed_record_can_be_marked_witness :
  setAttendance accepting org7 1 true eve_db =
    (attendance_updated, snd (update_attended true 1 eve_db)).
Proof.
  apply (listed_record_can_be_marked String.compare accepting org7 1 true
           eve_db
           {| ro_id := 5; ro_name := "Eve"; ro_email := "eve@example.org";
              ro_role_name := "Setup"; ro_attended := false;
              ro_record_id := 1 |}).
  - apply accepted_accepting.
  - exact claimed_db_keys.
  - exists (new_event org7 (fair (Some [setup2])) empty_db). simpl. tauto.
  - simpl. left. reflexivity.
Defined.

(** ** After a creation *)

Lemma number_roles_event rid eid rs :
  Forall (fun r => r_event_id r = eid) (number_roles rid eid rs).
Proof.
  revert rid. induction rs as [|rb rs IH]; intros rid; simpl; constructor.
  - reflexivity.
  - apply IH.
Qed.

(** X7.  The creator owns what it creates.  After a creation by an
    organization that the store accepts, in a store whose keys are fresh,
    the new event's organizer is the caller, every role row written refers
    to the new event, and the caller's roster request for the new event is
    answered 200. *)
Theorem creator_owns_event collate rej rej' u b rs st :
  userType u = "org" ->
  req_roles b = Some (map Some rs) ->
  accepted rej 0 (3 + List.length rs) ->
  accepted rej' 0 2 ->
  wf st ->
  let st' := snd (createEvent rej u b st) in
  organizer_of_event st' (events_id_seq st) (userId u) /\
  Forall (fun r => r_event_id r = events_id_seq st)
         (skipn (List.length (roles st)) (roles st')) /\
  List.length (roles st') = (List.length (roles st) + List.length rs)%nat /\
  eventVolunteers collate rej' u (events_id_seq st) st' =
    (json 200 (RosterBody (roster collate (events_id_seq st) st')), st').
Proof.
  intros Hu Hb Hacc Hacc' Hwf. cbv zeta.
  pose proof (createEvent_wf rej u b st Hwf) as Hwf'.
  destruct (createEvent_accepted rej u b rs st Hu Hb Hacc)
    as (st' & Hrun & _ & He & Hr & _).
  rewrite Hrun in *. cbn [snd] in *.
  assert (Hown : organizer_of_event st' (events_id_seq st) (userId u)).
  { exists (new_event u b st). rewrite He. split; [|now split].
    apply in_or_app. right. now left. }
  split; [exact Hown|]. split; [|split].
  - rewrite Hr, skipn_app, skipn_all, Nat.sub_diag. simpl.
    apply number_roles_event.
  - rewrite Hr, length_app. f_equal.
    clear. generalize (roles_id_seq st). induction rs as [|rb rs IH];
      intros rid; simpl; [reflexivity | now rewrite IH].
  - apply (eventVolunteers_listed collate rej' u _ st' []); [assumption|].
    apply event_check_owner; [|exact Hown].
    now apply wf_keys_unique.
Qed.

Lemma creator_owns_event_witness :
  eventVolunteers String.compare accepting org7 1 fair_db =
    (json 200 (RosterBody (roster String.compare 1 fair_db)), fair_db).
Proof.
  apply (creator_owns_event String.compare accepting accepting org7
           (fair (Some [setup2]))
           [setup2] empty_db eq_refl eq_refl
           (accepted_accepting 0 _) (accepted_accepting 0 2) wf_empty_db).
Defined.

(** ** Keys *)

(** X8.  Keys stay unique.  In a store where the keys of the events, the
    roles and the claims are distinct and below their generators, they
    still are after a creation, a signup, an attendance update, and after
    any interleaving of the statements of signups in flight, whatever the
    store rejects. *)
Theorem handlers_keep_keys_unique st :
  wf st ->
  (forall rej u b,
     wf (snd (createEvent rej u b st)) /\
     keys_unique (snd (createEvent rej u b st))) /\
  (forall rej u rid,
     wf (snd (signup rej u rid st)) /\
     keys_unique (snd (signup rej u rid st))) /\
  (forall rej u recordId attended,
     wf (snd (setAttendance rej u recordId attended st)) /\
     keys_unique (snd (setAttendance rej u recordId attended st))) /\
  (forall sched ts,
     wf (snd (run_schedule sched ts st)) /\
     keys_unique (snd (run_schedule sched ts st))).
Proof.
  intros Hwf. split; [|split; [|split]].
  - intros rej u b. pose proof (createEvent_wf rej u b st Hwf) as H.
    split; [exact H | now apply wf_keys_unique].
  - intros rej u rid. pose proof (signup_wf rej u rid st Hwf) as H.
    split; [exact H | now apply wf_keys_unique].
  - intros rej u recordId attended.
    pose proof (setAttendance_wf rej u recordId attended st Hwf) as H.
    split; [exact H | now apply wf_keys_unique].
  - intros sched ts. pose proof (run_schedule_wf sched ts st Hwf) as H.
    split; [exact H | now apply wf_keys_unique].
Qed.

Lemma handlers_keep_keys_unique_witness :
  keys_unique
    (snd (run_schedule [0; 1; 0; 1]%nat
            [Arrived accepting vol5 1; Arrived accepting vol5 1] fair_db)).
Proof.
  assert (Hwf : wf fair_db) by apply createEvent_wf, wf_empty_db.
  destruct (handlers_keep_keys_unique fair_db Hwf) as (_ & _ & _ & Hrun).
  apply Hrun.
Defined.

(** ** Signups in flight for different pairs *)

Lemma existing_signup_other vid rid vid' rid' st :
  vid <> vid' \/ rid <> rid' ->
  existing_signup vid' rid' (snd (insert_volunteer_role vid rid st)) =
  existing_signup vid' rid' st.
Proof.
  intros Hne. unfold existing_signup. simpl. rewrite filter_app. simpl.
  destruct (vid =? vid') eqn:Hv; destruct (rid =? rid') eqn:Hr; simpl;
    try apply app_nil_r.
  apply Z.eqb_eq in Hv, Hr. tauto.
Qed.

Lemma existing_signup_own vid rid st :
  existing_signup vid rid st = [] ->
  List.length (existing_signup vid rid (snd (insert_volunteer_role vid rid st)))
    = 1%nat.
Proof.
  intros Hex. unfold existing_signup in *. simpl.
  rewrite filter_app, Hex. simpl. now rewrite !Z.eqb_refl.
Qed.

Lemma on_course_same_rows u rid t st st' :
  existing_signup (userId u) rid st' = existing_signup (userId u) rid st ->
  on_course u rid t st -> on_course u rid t st'.
Proof.
  intros Hsame. destruct t; simpl; now rewrite Hsame.
Qed.

Lemma phase_le_2 t : (phase t <= 2)%nat.
Proof. destruct t; simpl; lia. Qed.

(** One statement of a request on course: it stays on course, moves one
    phase on, and leaves the rows of every other pair as they were. *)
Lemma signup_step_on_course u rid t st :
  userType u = "volunteer" ->
  on_course u rid t st ->
  on_course u rid (fst (signup_step t st)) (snd (signup_step t st)) /\
  phase (fst (signup_step t st)) = Nat.min 2 (S (phase t)) /\
  (forall vid' rid',
     userId u <> vid' \/ rid <> rid' ->
     existing_signup vid' rid' (snd (signup_step t st)) =
     existing_signup vid' rid' st).
Proof.
  intros Hu Hon. destruct t as [rej u0 rid0 | rej u0 rid0 | r]; simpl in Hon.
  - destruct Hon as (-> & -> & -> & Hex). simpl.
    unfold query, select. rewrite Hu. simpl. rewrite Hex. simpl.
    repeat split; auto.
  - destruct Hon as (-> & -> & -> & Hex). simpl. unfold query. simpl.
    split; [|split].
    + split; [reflexivity|]. now apply existing_signup_own.
    + reflexivity.
    + intros vid' rid' Hne. now apply existing_signup_other.
  - destruct Hon as [-> Hlen]. simpl. repeat split; auto.
Qed.

Lemma run_two_on_course u1 r1 u2 r2 sched : forall t1 t2 st,
  userType u1 = "volunteer" -> userType u2 = "volunteer" ->
  userId u1 <> userId u2 \/ r1 <> r2 ->
  on_course u1 r1 t1 st -> on_course u2 r2 t2 st ->
  exists t1' t2' st',
    run_schedule sched [t1; t2] st = ([t1'; t2'], st') /\
    on_course u1 r1 t1' st' /\ on_course u2 r2 t2' st' /\
    phase t1' = Nat.min 2 (phase t1 + count_occ Nat.eq_dec sched 0)%nat /\
    phase t2' = Nat.min 2 (phase t2 + count_occ Nat.eq_dec sched 1)%nat.
Proof.
  induction sched as [|i sched IH]; intros t1 t2 st Hu1 Hu2 Hne H1 H2.
  - exists t1, t2, st. cbn [run_schedule count_occ].
    pose proof (phase_le_2 t1). pose proof (phase_le_2 t2).
    repeat split; try assumption; lia.
  - destruct i as [|[|i]].
    + destruct (signup_step_on_course u1 r1 t1 st Hu1 H1) as (Hon & Hph & Hoth).
      simpl run_schedule. destruct (signup_step t1 st) as [t1' st1].
      cbn [fst snd] in *.
      destruct (IH t1' t2 st1 Hu1 Hu2 Hne Hon) as (a & b & st' & Hrun & Ha & Hb & Hpa & Hpb).
      { apply (on_course_same_rows u2 r2 t2 st st1); [|assumption].
        apply Hoth. exact Hne. }
      exists a, b, st'. simpl set_task. rewrite Hrun.
      repeat split; try assumption.
      rewrite Hpa, Hph. cbn [count_occ].
      destruct (Nat.eq_dec _ _); [lia | congruence].
    + destruct (signup_step_on_course u2 r2 t2 st Hu2 H2) as (Hon & Hph & Hoth).
      simpl run_schedule. destruct (signup_step t2 st) as [t2' st1].
      cbn [fst snd] in *.
      destruct (IH t1 t2' st1 Hu1 Hu2 Hne) as (a & b & st' & Hrun & Ha & Hb & Hpa & Hpb).
      { apply (on_course_same_rows u1 r1 t1 st st1); [|assumption].
        apply Hoth. destruct Hne as [Hne|Hne]; [left|right]; congruence. }
      { exact Hon. }
      exists a, b, st'. simpl set_task. rewrite Hrun.
      repeat split; try assumption.
      rewrite Hpb, Hph. cbn [count_occ].
      destruct (Nat.eq_dec _ _); [lia | congruence].
    + destruct (IH t1 t2 st Hu1 Hu2 Hne H1 H2)
        as (a & b & st' & Hrun & Ha & Hb & Hpa & Hpb).
      exists a, b, st'. cbn [run_schedule].
      replace (nth_error [t1; t2] (S (S i))) with (@None signup_task)
        by (now destruct i).
      rewrite Hrun. cbn [count_occ].
      destruct (Nat.eq_dec (S (S i)) 0); [discriminate|].
      destruct (Nat.eq_dec (S (S i)) 1); [discriminate|].
      repeat split; assumption.
Qed.

(** X9.  Signups for different pairs do not race.  Two requests in flight,
    by volunteers, for two different (volunteer, role) pairs that have no
    row, on a store that accepts every statement: in whatever order their
    statements reach the store, once each request has had its two
    statements run both are answered 201 and each pair has exactly one
    row. *)
Theorem distinct_pairs_never_race sched u1 r1 u2 r2 st :
  userType u1 = "volunteer" -> userType u2 = "volunteer" ->
  userId u1 <> userId u2 \/ r1 <> r2 ->
  existing_signup (userId u1) r1 st = [] ->
  existing_signup (userId u2) r2 st = [] ->
  (2 <= count_occ Nat.eq_dec sched 0)%nat ->
  (2 <= count_occ Nat.eq_dec sched 1)%nat ->
  exists st',
    run_schedule sched [Arrived accepting u1 r1; Arrived accepting u2 r2] st =
      ([Responded signed_up; Responded signed_up], st') /\
    List.length (existing_signup (userId u1) r1 st') = 1%nat /\
    List.length (existing_signup (userId u2) r2 st') = 1%nat.
Proof.
  intros Hu1 Hu2 Hne Hex1 Hex2 Hc1 Hc2.
  destruct (run_two_on_course u1 r1 u2 r2 sched
              (Arrived accepting u1 r1) (Arrived accepting u2 r2) st
              Hu1 Hu2 Hne)
    as (a & b & st' & Hrun & Ha & Hb & Hpa & Hpb).
  { simpl. tauto. }
  { simpl. tauto. }
  simpl phase in Hpa, Hpb.
  assert (Hpa2 : phase a = 2%nat) by lia.
  assert (Hpb2 : phase b = 2%nat) by lia.
  destruct a as [? ? ?|? ? ?|ra]; try discriminate.
  destruct b as [? ? ?|? ? ?|rb]; try discriminate.
  simpl in Ha, Hb. destruct Ha as [-> Hla]. destruct Hb as [-> Hlb].
  exists st'. now repeat split.
Qed.

Lemma distinct_pairs_never_race_witness :
  exists st',
    run_schedule [1; 0; 0; 1]%nat
      [Arrived accepting vol5 1; Arrived accepting vol9 1] fair_db =
      ([Responded signed_up; Responded signed_up], st') /\
    List.length (existing_signup 5 1 st') = 1%nat /\
    List.length (existing_signup 9 1 st') = 1%nat.
Proof.
  apply (distinct_pairs_never_race [1; 0; 0; 1]%nat vol5 1 vol9 1 fair_db).
  - reflexivity.
  - reflexivity.
  - left. simpl. lia.
  - reflexivity.
  - reflexivity.
  - simpl. lia.
  - simpl. lia.
Defined.

(** ** GET /api/events/:id *)

Lemma in_event_result e o id s :
  In (e, o) (event_result id s) <->
  In e (events (tables s)) /\ In o (organizations s) /\
  e_organizer_id e = o_id o /\ e_id e = id.
Proof.
  unfold event_result, events_organizers.
  rewrite filter_In, in_join. simpl. rewrite !Z.eqb_eq. tauto.
Qed.

(** X10.  The event detail.  A rejected statement, the first or the second,
    is answered 500, also when no event has the key.  With both statements
    accepted the answer is 404 exactly when no event with the key has an
    organizer with a row (an event whose organizer has no row is reported
    as not found), and 200 otherwise, with an event of that key, the name of
    its organizer, the roles of the event in table order and, for each, the
    number of claims on it.  The store is never changed. *)
Theorem getEvent_answer rej id s :
  snd (getEvent rej id s) = s /\
  (rej 0%nat = true \/ rej 1%nat = true ->
   public_status (fst (getEvent rej id s)) = 500%nat) /\
  (accepted rej 0 2 ->
   (public_status (fst (getEvent rej id s)) = 404%nat <->
    forall e o, In e (events (tables s)) -> In o (organizations s) ->
                e_organizer_id e = o_id o -> e_id e <> id) /\
   (public_status (fst (getEvent rej id s)) = 404%nat \/
    exists e o,
      In e (events (tables s)) /\ In o (organizations s) /\
      e_organizer_id e = o_id o /\ e_id e = id /\
      fst (getEvent rej id s) =
        public_json 200
          (EventDetail e (o_name o)
             (map (fun r =>
                     {| rl_role := r;
                        rl_current_volunteers :=
                          List.length
                            (filter (fun vr => vr_role_id vr =? r_id r)
                                    (volunteer_roles (tables s))) |})
                  (filter (fun r => r_event_id r =? id) (roles (tables s))))))).
Proof.
  unfold getEvent. split; [|split].
  - destruct (rej 0%nat); [reflexivity|].
    destruct (rej 1%nat); [reflexivity|].
    now destruct (event_result id s).
  - intros [H|H]; rewrite H; [reflexivity|].
    now destruct (rej 0%nat).
  - intros Hacc.
    assert (H0 : rej 0%nat = false) by (apply (Hacc 0%nat); lia).
    assert (H1 : rej 1%nat = false) by (apply (Hacc 1%nat); lia).
    rewrite H0, H1.
    destruct (event_result id s) as [|[e o] rest] eqn:Hres; simpl.
    + split; [|now left]. split; [|reflexivity].
      intros _ e o He Ho Horg Hid.
      assert (Hin : In (e, o) (event_result id s))
        by (apply in_event_result; tauto).
      rewrite Hres in Hin. contradiction.
    + assert (Hin : In (e, o) (event_result id s))
        by (rewrite Hres; now left).
      apply in_event_result in Hin. destruct Hin as (He & Ho & Horg & Hid).
      split.
      * split; [discriminate|]. intros Hnone. exfalso.
        apply (Hnone e o He Ho Horg Hid).
      * right. exists e, o. repeat split; assumption.
Qed.

Lemma getEvent_answer_witness :
  In 1 (map e_id (events (tables orphan_site))) /\
  public_status (fst (getEvent accepting 1 orphan_site)) = 404%nat.
Proof.
  split; [simpl; tauto|].
  destruct (getEvent_answer accepting 1 orphan_site) as (_ & _ & Hacc).
  destruct (Hacc (accepted_accepting 0 2)) as [Hiff _].
  apply Hiff. intros e o _ Ho. exact (False_ind _ Ho).
Defined.

Lemma filter_all {A} (p : A -> bool) l :
  Forall (fun x => p x = true) l -> filter p l = l.
Proof.
  induction 1 as [|x l Hx _ IH]; simpl; [reflexivity|].
  now rewrite Hx, IH.
Qed.

Lemma number_roles_keys rid eid rs :
  Forall (fun r => rid <= r_id r) (number_roles rid eid rs).
Proof.
  revert rid. induction rs as [|rb rs IH]; intros rid; simpl; constructor.
  - simpl. lia.
  - eapply Forall_impl; [|apply (IH (rid + 1))]. simpl. intros r Hr. lia.
Qed.

(** X11.  A new event starts with its roles unclaimed.  An organization that
    has a row creates an event; the store accepts every statement, its keys
    are fresh, and no role or claim refers to a key not yet drawn.  The
    detail of the new event is then answered 200 with the event as sent,
    the organization's name, and the roles of the request in order, each
    with no volunteer. *)
Theorem created_event_detail rej rej' u b rs o s :
  userType u = "org" ->
  req_roles b = Some (map Some rs) ->
  accepted rej 0 (3 + List.length rs) ->
  accepted rej' 0 2 ->
  wf (tables s) ->
  references_drawn (tables s) ->
  NoDup (map o_id (organizations s)) ->
  In o (organizations s) -> o_id o = userId u ->
  getEvent rej' (events_id_seq (tables s))
    (snd (on_tables (createEvent rej u b) s)) =
  (public_json 200
     (EventDetail (new_event u b (tables s)) (o_name o)
        (map (fun r => {| rl_role := r; rl_current_volunteers := 0 |})
             (number_roles (roles_id_seq (tables s))
                           (events_id_seq (tables s)) rs))),
   snd (on_tables (createEvent rej u b) s)).
Proof.
  intros Hu Hb Hacc Hacc' Hwf [Hroles Hclaims] Hnd Ho Hoid.
  assert (H0 : rej' 0%nat = false) by (apply (Hacc' 0%nat); lia).
  assert (H1 : rej' 1%nat = false) by (apply (Hacc' 1%nat); lia).
  pose proof (createEvent_wf rej u b (tables s) Hwf) as Hwf'.
  destruct (createEvent_accepted rej u b rs (tables s) Hu Hb Hacc)
    as (st' & Hrun & _ & He & Hr & Hvr).
  unfold on_tables. rewrite Hrun in *. cbn [fst snd] in *.
  set (s' := {| organizations := organizations s;
                organizations_id_seq := organizations_id_seq s;
                volunteers_id_seq := volunteers_id_seq s;
                tables := st' |}).
  set (ne := new_event u b (tables s)).
  assert (Hres : event_result (events_id_seq (tables s)) s' = [(ne, o)]).
  { unfold event_result, events_organizers. cbn [tables organizations s'].
    rewrite (filter_join_left _
               (fun e => e_id e =? events_id_seq (tables s))).
    rewrite (filter_unique e_id _ _ ne).
    - unfold join. simpl.
      rewrite (filter_unique o_id _ _ o Hnd Ho); [reflexivity|].
      intros y. rewrite Z.eqb_eq, Hoid. split; congruence.
    - apply wf_keys_unique in Hwf'. apply Hwf'.
    - rewrite He. apply in_or_app. right. now left.
    - intros y. rewrite Z.eqb_eq. reflexivity. }
  unfold getEvent. rewrite H0, H1, Hres. cbn [fst snd].
  f_equal. f_equal. f_equal.
  unfold roles_result. cbn [tables s']. rewrite Hr, filter_app.
  rewrite filter_none.
  2:{ intros r Hin. apply Z.eqb_neq.
      rewrite Forall_forall in Hroles. specialize (Hroles r Hin). lia. }
  rewrite filter_all.
  2:{ eapply Forall_impl; [|apply number_roles_event].
      simpl. intros r Hr'. now apply Z.eqb_eq. }
  simpl. apply map_ext_in. intros r Hin. f_equal.
  unfold current_volunteers. cbn [tables s']. rewrite Hvr.
  rewrite filter_none; [reflexivity|].
  intros vr Hvrin. apply Z.eqb_neq.
  rewrite Forall_forall in Hclaims. specialize (Hclaims vr Hvrin).
  pose proof (number_roles_keys (roles_id_seq (tables s))
                (events_id_seq (tables s)) rs) as Hkeys.
  rewrite Forall_forall in Hkeys. specialize (Hkeys r Hin). lia.
Qed.

Lemma created_event_detail_witness :
  getEvent accepting 1 acme_site =
  (public_json 200
     (EventDetail
        (new_event {| userId := 1; userType := "org" |}
                   (fair (Some [setup2])) empty_db)
        "Acme"
        [{| rl_role := role_of_body 1 1 setup2; rl_current_volunteers := 0 |}]),
   acme_site).
Proof.
  apply (created_event_detail accepting accepting
           {| userId := 1; userType := "org" |} (fair (Some [setup2]))
           [setup2]
           {| o_id := 1; o_name := "Acme"; o_email := "acme@example.org";
              o_password_hash := "hunter2"; o_description := "Tools" |}
           {| organizations := organizations acme_site;
              organizations_id_seq := 2; volunteers_id_seq := 1;
              tables := empty_db |}).
  - reflexivity.
  - reflexivity.
  - apply accepted_accepting.
  - apply accepted_accepting.
  - exact wf_empty_db.
  - split; constructor.
  - simpl. repeat constructor. simpl. tauto.
  - simpl. left. reflexivity.
  - reflexivity.
Defined.

(** ** GET /api/events *)

Lemma signup_frame rej u rid st :
  events (snd (signup rej u rid st)) = events st /\
  roles (snd (signup rej u rid st)) = roles st.
Proof.
  unfold signup, signup_try, bind, query, select.
  destruct (negb (String.eqb (userType u) "volunteer")); [now split|].
  destruct (rej 0%nat); [now split|]. simpl.
  destruct (0 <? List.length (existing_signup (userId u) rid st))%nat;
    [now split|].
  destruct (rej 1%nat); now split.
Qed.

Lemma in_upcoming_pairs now s e o :
  In (e, o)
     (order_by soonest_first
        (filter (fun eo => now <? e_date (fst eo)) (events_organizers s))) <->
  In e (events (tables s)) /\ In o (organizations s) /\
  e_organizer_id e = o_id o /\ now < e_date e.
Proof.
  split.
  - intros Hin. apply (Permutation_in _ (order_by_perm _ _)) in Hin.
    apply filter_In in Hin. destruct Hin as [Hin Hd].
    apply in_join in Hin. destruct Hin as (He & Ho & Horg).
    simpl in *. apply Z.ltb_lt in Hd. apply Z.eqb_eq in Horg. tauto.
  - intros (He & Ho & Horg & Hd).
    apply (Permutation_in _ (Permutation_sym (order_by_perm _ _))).
    apply filter_In. split; [|now apply Z.ltb_lt].
    apply in_join. repeat split; [assumption|assumption|].
    now apply Z.eqb_eq.
Qed.

(** X12.  The public listing.  A rejected query is answered 500.  Otherwise
    the answer is 200 with one row for each entry of a list of (event,
    organization) rows of the tables, carrying the event, the
    organization's name and the number of roles of the event.  The list
    holds exactly the events dated strictly after the instant of the query
    together with the row of their organizer (an event whose organizer has
    no row is left out), in ascending order of date; when the keys of the
    events and of the organizations are unique no event is listed twice.
    The count is of roles, not of claims: a signup leaves the listing as it
    was.  The store is never changed. *)
Theorem listEvents_answer rej now s :
  snd (listEvents rej now s) = s /\
  (rej 0%nat = true -> public_status (fst (listEvents rej now s)) = 500%nat) /\
  (rej 0%nat = false ->
   exists pairs : list (event * organization),
     fst (listEvents rej now s) =
       public_json 200
         (EventList
            (map (fun eo =>
                    {| el_event := fst eo;
                       el_organizer_name := o_name (snd eo);
                       el_role_count :=
                         List.length
                           (filter (fun r => r_event_id r =? e_id (fst eo))
                                   (roles (tables s))) |})
                 pairs)) /\
     (forall e o,
        In (e, o) pairs <->
        In e (events (tables s)) /\ In o (organizations s) /\
        e_organizer_id e = o_id o /\ now 0%nat < e_date e) /\
     (NoDup (map e_id (events (tables s))) ->
      NoDup (map o_id (organizations s)) ->
      NoDup (map (fun eo => e_id (fst eo)) pairs)) /\
     Sorted Z.le (map (fun eo => e_date (fst eo)) pairs) /\
     (forall rej' u rid,
        fst (listEvents rej now (snd (on_tables (signup rej' u rid) s))) =
        fst (listEvents rej now s))).
Proof.
  unfold listEvents. split; [|split].
  - now destruct (rej 0%nat).
  - intros ->. reflexivity.
  - intros H0. rewrite H0.
    exists (order_by soonest_first
              (filter (fun eo => now 0%nat <? e_date (fst eo))
                      (events_organizers s))).
    split; [reflexivity|]. split; [|split; [|split]].
    + intros e o. apply in_upcoming_pairs.
    + intros He Ho. apply NoDup_map_on.
      * apply (Permutation_NoDup (Permutation_sym (order_by_perm _ _))).
        apply NoDup_filter. apply join_NoDup; eapply NoDup_map_inv; eassumption.
      * intros [e1 o1] [e2 o2] H1 H2 Hk. simpl in Hk.
        apply in_upcoming_pairs in H1, H2.
        destruct H1 as (He1 & Ho1 & Horg1 & _).
        destruct H2 as (He2 & Ho2 & Horg2 & _).
        assert (e1 = e2)
          by (apply (unique_by_key e_id (events (tables s))); assumption).
        subst e2.
        assert (o1 = o2)
          by (apply (unique_by_key o_id (organizations s)); congruence).
        now subst.
    + apply (Sorted_map (fun a b => soonest_first a b = true)).
      * intros a b H. unfold soonest_first in H. now apply Z.leb_le in H.
      * apply order_by_sorted. intros a b H. unfold soonest_first in *.
        apply Z.leb_gt in H. apply Z.leb_le. lia.
    + intros rej' u rid. unfold on_tables.
      destruct (signup_frame rej' u rid (tables s)) as [He Hr].
      destruct (signup rej' u rid (tables s)) as [r st']. cbn [fst snd] in *.
      do 2 f_equal.
      unfold upcoming_listing, events_organizers. cbn [tables organizations].
      rewrite He. apply map_ext. intros eo.
      unfold listing_of, role_count. cbn [tables]. now rewrite Hr.
Qed.

Lemma listEvents_answer_witness :
  fst (listEvents accepting (fun _ => 100) acme_site) =
    public_json 200 (EventList []) /\
  exists pairs,
    fst (listEvents accepting (fun _ => 99) acme_site) =
      public_json 200
        (EventList
           (map (fun eo =>
                   {| el_event := fst eo;
                      el_organizer_name := o_name (snd eo);
                      el_role_count :=
                        List.length
                          (filter (fun r => r_event_id r =? e_id (fst eo))
                                  (roles (tables acme_site))) |})
                pairs)) /\
    NoDup (map (fun eo => e_id (fst eo)) pairs).
Proof.
  split; [reflexivity|].
  destruct (listEvents_answer accepting (fun _ => 99) acme_site)
    as (_ & _ & Hok).
  destruct (Hok eq_refl) as (pairs & Hrun & _ & Hnodup & _).
  exists pairs. split; [exact Hrun|].
  apply Hnodup; simpl; repeat constructor; simpl; tauto.
Defined.

(** ** Registration and login *)

Section IdentityFacts.
Variable bcrypt_hash : string -> string -> string.
Variable bcrypt_compare : string -> string -> bool.
Variable jwt_sign : Z -> user -> string.

Lemma filter_email_fresh {A} (email : A -> string) (x : A) l :
  (forall y, In y l -> email y <> email x) ->
  filter (fun y => String.eqb (email y) (email x)) (l ++ [x]) = [x].
Proof.
  intros Hfresh. rewrite filter_app, filter_none.
  - simpl. now rewrite String.eqb_refl.
  - intros y Hy. apply String.eqb_neq. now apply Hfresh.
Qed.

(** X13.  Register, then log in.  When [bcrypt.compare] accepts a password
    against every hash [bcrypt.hash] makes of it, an organization whose
    email no organization has, once registered (201), logs in with the same
    email and password and [userType] ['org'] and is answered 200 with the
    same account and a token for the same key and kind; likewise a
    volunteer with [userType] ['volunteer']. *)
Theorem register_then_login rej rej' salt iat iat' s :
  (forall salt' password,
     bcrypt_compare password (bcrypt_hash salt' password) = true) ->
  rej 0%nat = false -> rej' 0%nat = false ->
  (forall b,
     (forall o, In o (organizations s) -> o_email o <> ob_email b) ->
     let account_of :=
       OrgAccount {| op_id := organizations_id_seq s; op_name := ob_name b;
                     op_email := ob_email b;
                     op_description := ob_description b |} in
     let payload := {| userId := organizations_id_seq s; userType := "org" |} in
     let s1 := snd (register_org bcrypt_hash jwt_sign rej salt iat b s) in
     fst (register_org bcrypt_hash jwt_sign rej salt iat b s) =
       auth_json 201 (Session account_of (jwt_sign iat payload)) /\
     login bcrypt_compare jwt_sign rej' iat'
       {| lb_email := ob_email b; lb_password := ob_password b;
          lb_userType := "org" |} s1 =
       (auth_json 200 (Session account_of (jwt_sign iat' payload)), s1)) /\
  (forall b,
     (forall v, In v (volunteers (tables s)) -> v_email v <> vb_email b) ->
     let account_of :=
       VolunteerAccount
         {| vp_id := volunteers_id_seq s; vp_name := vb_name b;
            vp_email := vb_email b; vp_interests := vb_interests b |} in
     let payload :=
       {| userId := volunteers_id_seq s; userType := "volunteer" |} in
     let s1 := snd (register_volunteer bcrypt_hash jwt_sign rej salt iat b s) in
     fst (register_volunteer bcrypt_hash jwt_sign rej salt iat b s) =
       auth_json 201 (Session account_of (jwt_sign iat payload)) /\
     login bcrypt_compare jwt_sign rej' iat'
       {| lb_email := vb_email b; lb_password := vb_password b;
          lb_userType := "volunteer" |} s1 =
       (auth_json 200 (Session account_of (jwt_sign iat' payload)), s1)).
Proof.
  intros Hbcrypt H0 H0'. split; intros b Hfresh; cbv zeta.
  - unfold register_org. rewrite H0. cbn [fst snd]. split; [reflexivity|].
    unfold login. rewrite H0'. cbn [lb_userType lb_email lb_password].
    simpl String.eqb. cbv iota.
    unfold insert_organization at 1. cbn [organizations].
    set (row := {| o_id := organizations_id_seq s; o_name := ob_name b;
                   o_email := ob_email b;
                   o_password_hash := bcrypt_hash salt (ob_password b);
                   o_description := ob_description b |}).
    change (ob_email b) with (o_email row) at 1.
    rewrite (filter_email_fresh o_email row (organizations s) Hfresh).
    cbn [o_password_hash row]. rewrite Hbcrypt. reflexivity.
  - unfold register_volunteer. rewrite H0. cbn [fst snd]. split; [reflexivity|].
    unfold login. rewrite H0'. cbn [lb_userType lb_email lb_password].
    simpl String.eqb. cbv iota.
    unfold insert_volunteer at 1. cbn [tables volunteers].
    set (row := {| v_id := volunteers_id_seq s; v_name := vb_name b;
                   v_email := vb_email b;
                   v_password_hash := bcrypt_hash salt (vb_password b);
                   v_interests := vb_interests b |}).
    change (vb_email b) with (v_email row) at 1.
    rewrite (filter_email_fresh v_email row (volunteers (tables s)) Hfresh).
    cbn [v_password_hash row]. rewrite Hbcrypt. reflexivity.
Qed.

(** X14.  What a session stands for.  Whenever [login] answers with a
    session, the store is as it was and the token is signed for the key of a
    row that has the email sent and whose hash [bcrypt.compare] accepts for
    the password sent, with the [userType] as sent; the row is an
    organization exactly when the [userType] sent is ['org'], and a
    volunteer for every other [userType]. *)
Theorem login_session_names_account rej iat b s account_of token :
  fst (login bcrypt_compare jwt_sign rej iat b s) =
    auth_json 200 (Session account_of token) ->
  snd (login bcrypt_compare jwt_sign rej iat b s) = s /\
  ((lb_userType b = "org" /\
    exists o, In o (organizations s) /\ o_email o = lb_email b /\
      bcrypt_compare (lb_password b) (o_password_hash o) = true /\
      account_of = OrgAccount (org_public_of o) /\
      token = jwt_sign iat {| userId := o_id o; userType := "org" |})
   \/
   (lb_userType b <> "org" /\
    exists v, In v (volunteers (tables s)) /\ v_email v = lb_email b /\
      bcrypt_compare (lb_password b) (v_password_hash v) = true /\
      account_of = VolunteerAccount (volunteer_public_of v) /\
      token = jwt_sign iat {| userId := v_id v; userType := lb_userType b |})).
Proof.
  unfold login. destruct (rej 0%nat); [discriminate|].
  destruct (String.eqb_spec (lb_userType b) "org") as [Hk|Hk].
  - destruct (filter (fun o => String.eqb (o_email o) (lb_email b))
                     (organizations s)) as [|o rest] eqn:Hf; [discriminate|].
    assert (Hin : In o (filter (fun o => String.eqb (o_email o) (lb_email b))
                               (organizations s))) by (rewrite Hf; now left).
    apply filter_In in Hin. destruct Hin as [Hin Hemail].
    apply String.eqb_eq in Hemail.
    destruct (bcrypt_compare (lb_password b) (o_password_hash o)) eqn:Hpw;
      [|discriminate].
    simpl. intros H. injection H as <- <-.
    split; [reflexivity|]. left. split; [assumption|].
    exists o. rewrite Hk. repeat split; assumption.
  - destruct (filter (fun v => String.eqb (v_email v) (lb_email b))
                     (volunteers (tables s))) as [|v rest] eqn:Hf;
      [discriminate|].
    assert (Hin : In v (filter (fun v => String.eqb (v_email v) (lb_email b))
                               (volunteers (tables s))))
      by (rewrite Hf; now left).
    apply filter_In in Hin. destruct Hin as [Hin Hemail].
    apply String.eqb_eq in Hemail.
    destruct (bcrypt_compare (lb_password b) (v_password_hash v)) eqn:Hpw;
      [|discriminate].
    simpl. intros H. injection H as <- <-.
    split; [reflexivity|]. right. split; [assumption|].
    exists v. repeat split; assumption.
Qed.

(** X15.  Refusals look alike.  When the query is accepted and
    [bcrypt.compare] refuses the password sent against the hash of every row
    that has the email sent in the table the [userType] selects (as when no
    row has it), [login] answers 400 "Invalid credentials", the same answer
    for an unknown email and for a wrong password, and leaves the store as
    it was. *)
Theorem login_refuses_alike rej iat b s :
  rej 0%nat = false ->
  (forall id hash,
     In (id, hash) (credentials_of b s) ->
     bcrypt_compare (lb_password b) hash = false) ->
  login bcrypt_compare jwt_sign rej iat b s = (invalid_credentials, s).
Proof.
  intros H0 Hbad. unfold login. rewrite H0.
  unfold credentials_of in Hbad.
  destruct (String.eqb (lb_userType b) "org").
  - destruct (filter (fun o => String.eqb (o_email o) (lb_email b))
                     (organizations s)) as [|o rest]; [reflexivity|].
    rewrite (Hbad (o_id o) (o_password_hash o)); [reflexivity|].
    simpl. now left.
  - destruct (filter (fun v => String.eqb (v_email v) (lb_email b))
                     (volunteers (tables s))) as [|v rest]; [reflexivity|].
    rewrite (Hbad (v_id v) (v_password_hash v)); [reflexivity|].
    simpl. now left.
Qed.
End IdentityFacts.

Lemma register_then_login_witness :
  login toy_compare toy_sign accepting 20
    {| lb_email := "acme@example.org"; lb_password := "hunter2";
       lb_userType := "org" |}
    (snd (register_org toy_hash toy_sign accepting "salt" 10 acme empty_site)) =
  (auth_json 200
     (Session (OrgAccount {| op_id := 1; op_name := "Acme";
                             op_email := "acme@example.org";
                             op_description := "Tools" |})
              "org.1"),
   snd (register_org toy_hash toy_sign accepting "salt" 10 acme empty_site)).
Proof.
  assert (Hbcrypt : forall salt' password,
             toy_compare password (toy_hash salt' password) = true).
  { intros salt' password. apply String.eqb_refl. }
  destruct (register_then_login toy_hash toy_compare toy_sign
              accepting accepting "salt" 10 20 empty_site Hbcrypt
              eq_refl eq_refl) as [Horg _].
  assert (Hfresh : forall o, In o (organizations empty_site) ->
                             o_email o <> ob_email acme).
  { intros o Ho. exact (False_ind _ Ho). }
  exact (proj2 (Horg acme Hfresh)).
Defined.

Lemma login_session_names_account_witness :
  exists v,
    In v (volunteers
            (tables (snd (register_volunteer toy_hash toy_sign accepting "salt"
                            10 ann empty_site)))) /\
    v_email v = "ann@example.org" /\
    "admin.1" = toy_sign 20 {| userId := v_id v; userType := "admin" |}.
Proof.
  destruct (login_session_names_account toy_compare toy_sign accepting 20
              {| lb_email := "ann@example.org"; lb_password := "s3cret";
                 lb_userType := "admin" |}
              (snd (register_volunteer toy_hash toy_sign accepting "salt" 10
                      ann empty_site))
              (VolunteerAccount {| vp_id := 1; vp_name := "Ann";
                                   vp_email := "ann@example.org";
                                   vp_interests := "parks" |})
              "admin.1" eq_refl) as [_ [[Hk _] | [_ (v & Hin & Hemail & _ & _ & Htok)]]].
  - discriminate.
  - exists v. repeat split; assumption.
Defined.

Lemma login_refuses_alike_witness :
  login toy_compare toy_sign accepting 20
    {| lb_email := "acme@example.org"; lb_password := "wrong";
       lb_userType := "org" |} acme_site = (invalid_credentials, acme_site) /\
  login toy_compare toy_sign accepting 20
    {| lb_email := "nobody@example.org"; lb_password := "hunter2";
       lb_userType := "org" |} acme_site = (invalid_credentials, acme_site).
Proof.
  split.
  - apply login_refuses_alike; [reflexivity|].
    intros id hash [Heq|[]]. injection Heq as _ <-. reflexivity.
  - apply login_refuses_alike; [reflexivity|].
    intros id hash [].
Defined.

(** ** The token of a header *)

Lemma append_assoc (a b c : string) :
  String.append (String.append a b) c = String.append a (String.append b c).
Proof. induction a as [|x a IH]; simpl; [reflexivity | now rewrite IH]. Qed.

Lemma append_empty_r (a : string) : String.append a EmptyString = a.
Proof. induction a as [|x a IH]; simpl; [reflexivity | now rewrite IH]. Qed.

(** A word that ends the header is the last piece. *)
Lemma split_space_last w : forall cur,
  spaceless w = true -> split_space cur w = [String.append cur w].
Proof.
  induction w as [|c w IH]; intros cur Hw; simpl in *.
  - now rewrite append_empty_r.
  - apply andb_true_iff in Hw. destruct Hw as [Hc Hw].
    apply negb_true_iff in Hc. rewrite Hc, (IH _ Hw), append_assoc.
    reflexivity.
Qed.

(** A word followed by a space is a piece, and the rest is split on its
    own. *)
Lemma split_space_word w rest : forall cur,
  spaceless w = true ->
  split_space cur (String.append w (String " "%char rest)) =
    String.append cur w :: split_space EmptyString rest.
Proof.
  induction w as [|c w IH]; intros cur Hw; simpl in *.
  - now rewrite append_empty_r.
  - apply andb_true_iff in Hw. destruct Hw as [Hc Hw].
    apply negb_true_iff in Hc. rewrite Hc, (IH _ Hw), append_assoc.
    reflexivity.
Qed.

(** X16.  The token is the second word of the header, whatever the first
    word is: for a first word and a non-empty token without spaces, the
    header "first token" yields the token, and so does the header followed
    by a space and anything; a header of one word, with or without a space
    after it, and a missing header yield no token. *)
Theorem bearer_is_second_word scheme token rest :
  spaceless scheme = true -> spaceless token = true ->
  token <> EmptyString ->
  bearer (Some (String.append scheme (String " "%char token))) = Some token /\
  bearer (Some (String.append scheme
                  (String " "%char
                     (String.append token (String " "%char rest))))) =
    Some token /\
  bearer (Some scheme) = None /\
  bearer (Some (String.append scheme (String " "%char EmptyString))) = None /\
  bearer None = None.
Proof.
  intros Hs Ht Hne.
  assert (Hnonempty : String.eqb token EmptyString = false)
    by now apply String.eqb_neq.
  unfold bearer. repeat split.
  - rewrite (split_space_word scheme token EmptyString Hs).
    rewrite (split_space_last token EmptyString Ht). cbn [nth_error String.append].
    now rewrite Hnonempty.
  - rewrite (split_space_word scheme _ EmptyString Hs).
    rewrite (split_space_word token rest EmptyString Ht). cbn [nth_error String.append].
    now rewrite Hnonempty.
  - now rewrite (split_space_last scheme EmptyString Hs).
  - now rewrite (split_space_word scheme EmptyString EmptyString Hs).
Qed.

Lemma bearer_is_second_word_witness :
  bearer (Some "Basic abc.def") = Some "abc.def" /\
  bearer (Some "Bearer abc.def trailing words") = Some "abc.def".
Proof.
  destruct (bearer_is_second_word "Basic" "abc.def" EmptyString)
    as (H1 & _); [reflexivity | reflexivity | discriminate |].
  destruct (bearer_is_second_word "Bearer" "abc.def" "trailing words")
    as (_ & H2 & _); [reflexivity | reflexivity | discriminate |].
  split; [exact H1 | exact H2].
Defined.

(** ** Behind the middleware *)

(** X17.  No handler runs for a request without a verified token.  For each
    of the five routes behind the middleware, a header that yields no token
    is answered 401 and a token [jwt.verify] refuses is answered 403; in
    both cases the store is as it was, whatever it would reject. *)
Theorem unverified_requests_change_nothing jwt_verify collate rej now
    authHeader st :
  let answers code :=
    (forall b, post_events jwt_verify rej authHeader b st = (sendStatus code, st)) /\
    (forall roleId,
       post_signup jwt_verify rej authHeader roleId st = (sendStatus code, st)) /\
    get_profile jwt_verify rej now authHeader st = (sendStatus code, st) /\
    (forall eventId,
       get_event_volunteers jwt_verify collate rej authHeader eventId st =
         (sendStatus code, st)) /\
    (forall recordId attended,
       patch_attendance jwt_verify rej authHeader recordId attended st =
         (sendStatus code, st)) in
  (bearer authHeader = None -> answers 401%nat) /\
  (forall token,
     bearer authHeader = Some token -> jwt_verify token = None ->
     answers 403%nat).
Proof.
  cbv zeta.
  unfold post_events, post_signup, get_profile, get_event_volunteers,
    patch_attendance, authenticateToken.
  split.
  - intros ->. repeat split.
  - intros token -> ->. repeat split.
Qed.

Lemma unverified_requests_change_nothing_witness :
  patch_attendance toy_verify accepting (Some "Bearer forged") 1 true claimed_db =
    (sendStatus 403, claimed_db) /\
  post_signup toy_verify accepting (Some "Bearer") 1 fair_db =
    (sendStatus 401, fair_db).
Proof.
  destruct (unverified_requests_change_nothing toy_verify String.compare
              accepting
              (fun _ => 0) (Some "Bearer forged") claimed_db) as [_ H403].
  destruct (unverified_requests_change_nothing toy_verify String.compare
              accepting
              (fun _ => 0) (Some "Bearer") fair_db) as [H401 _].
  split.
  - apply (H403 "forged" eq_refl eq_refl).
  - apply (H401 eq_refl).
Defined.

(** X18.  From registration to the first event.  When [jwt.verify] gives
    back the payload [jwt.sign] signed and the token is one non-empty word,
    the token an organization is given at registration, sent as
    "Bearer token", passes the middleware and the kind check of
    [POST /api/events]: the creation runs for the new organization's key,
    and is answered 201 when the store accepts its statements.  The same
    header is refused by the signup route with 403 and no change. *)
Theorem registered_org_can_create bcrypt_hash jwt_sign jwt_verify
    rej salt iat ob s rej' b rs st :
  let payload := {| userId := organizations_id_seq s; userType := "org" |} in
  let token := jwt_sign iat payload in
  let header := Some (String.append "Bearer" (String " "%char token)) in
  jwt_verify token = Some payload ->
  spaceless token = true -> token <> EmptyString ->
  rej 0%nat = false ->
  req_roles b = Some (map Some rs) ->
  accepted rej' 0 (3 + List.length rs) ->
  (exists account_of,
     fst (register_org bcrypt_hash jwt_sign rej salt iat ob s) =
       auth_json 201 (Session account_of token)) /\
  post_events jwt_verify rej' header b st = createEvent rej' payload b st /\
  status (fst (post_events jwt_verify rej' header b st)) = 201%nat /\
  e_organizer_id (new_event payload b st) = organizations_id_seq s /\
  (forall roleId,
     post_signup jwt_verify rej' header roleId st = (sendStatus 403, st)).
Proof.
  cbv zeta. intros Hverify Hword Hne H0 Hb Hacc.
  assert (Hbearer :
            bearer (Some (String.append "Bearer"
                            (String " "%char
                               (jwt_sign iat
                                  {| userId := organizations_id_seq s;
                                     userType := "org" |})))) =
            Some (jwt_sign iat {| userId := organizations_id_seq s;
                                  userType := "org" |})).
  { unfold bearer. rewrite (split_space_word "Bearer" _ EmptyString eq_refl).
    rewrite (split_space_last _ EmptyString Hword). cbn [nth_error String.append].
    apply String.eqb_neq in Hne. now rewrite Hne. }
  assert (Hroute : post_events jwt_verify rej'
             (Some (String.append "Bearer"
                      (String " "%char
                         (jwt_sign iat {| userId := organizations_id_seq s;
                                          userType := "org" |})))) b st =
           createEvent rej' {| userId := organizations_id_seq s;
                               userType := "org" |} b st).
  { unfold post_events, authenticateToken. now rewrite Hbearer, Hverify. }
  split; [|split; [|split; [|split]]].
  - unfold register_org. rewrite H0. eexists. reflexivity.
  - exact Hroute.
  - rewrite Hroute.
    destruct (createEvent_accepted rej'
                {| userId := organizations_id_seq s; userType := "org" |}
                b rs st eq_refl Hb Hacc) as (st' & -> & _).
    reflexivity.
  - reflexivity.
  - intros roleId. unfold post_signup, authenticateToken.
    rewrite Hbearer, Hverify. reflexivity.
Qed.

Lemma registered_org_can_create_witness :
  (exists account_of,
     fst (register_org toy_hash toy_sign accepting "salt" 10 acme empty_site) =
       auth_json 201 (Session account_of "org.1")) /\
  status (fst (post_events toy_verify accepting (Some "Bearer org.1")
                 (fair (Some [setup2])) empty_db)) = 201%nat.
Proof.
  destruct (registered_org_can_create toy_hash toy_sign toy_verify
              accepting "salt" 10 acme empty_site accepting
              (fair (Some [setup2])) [setup2] empty_db)
    as (Hreg & _ & Hcreated & _).
  - reflexivity.
  - reflexivity.
  - discriminate.
  - reflexivity.
  - reflexivity.
  - apply accepted_accepting.
  - split; [exact Hreg | exact Hcreated].
Defined.

(** ** From the roster routes to the profile *)

(** X19.  A new claim shows in the profile.  After a signup answered 201 for
    a role of an event, the volunteer's profile (both queries accepted) is
    answered 200 and carries the event with the role's name and the
    attended flag false: under [upcoming] when the event is dated after the
    instant of the upcoming query, under [past] when it is dated at or
    before the instant of the past query. *)
Theorem signup_shows_in_profile rej rej' now u rid e r st :
  userType u = "volunteer" ->
  accepted rej 0 2 -> accepted rej' 0 2 ->
  existing_signup (userId u) rid st = [] ->
  In e (events st) -> In r (roles st) ->
  r_id r = rid -> r_event_id r = e_id e ->
  let st' := snd (signup rej u rid st) in
  fst (signup rej u rid st) = signed_up /\
  exists upcoming past totalEvents totalHours,
    volunteerProfile rej' now u st' =
      (json 200 (ProfileBody upcoming past totalEvents totalHours), st') /\
    (now 0%nat < e_date e ->
     In {| pr_event := e; pr_role_name := r_name r; pr_role_id := Some rid;
           pr_attended := false |} upcoming) /\
    (e_date e <= now 1%nat ->
     In {| pr_event := e; pr_role_name := r_name r; pr_role_id := None;
           pr_attended := false |} past).
Proof.
  intros Hu Hacc Hacc' Hex He Hr Hrid Hev. cbv zeta.
  destruct (signup_accepted rej u rid st Hu Hacc) as [_ Hnew].
  destruct (Hnew Hex) as [Hans Hrows].
  destruct (signup_frame rej u rid st) as [Hevents Hroles].
  split; [exact Hans|].
  set (st' := snd (signup rej u rid st)) in *.
  set (vr := claim_row (volunteer_roles_id_seq st) (userId u) rid) in *.
  assert (Hclaim : In (e, r, vr) (claims_of (userId u) st')).
  { apply in_claims_of. rewrite Hevents, Hroles, Hrows.
    repeat split; try assumption.
    - apply in_or_app. right. now left.
    - simpl. congruence. }
  rewrite (volunteerProfile_accepted rej' now u st' Hu Hacc').
  do 4 eexists. split; [reflexivity|]. split.
  - intros Hd.
    destruct (upcoming_events_spec (now 0%nat) (userId u) st') as [Hperm _].
    apply (Permutation_in _ (Permutation_sym Hperm)).
    apply (in_map upcoming_row _ (e, r, vr)).
    apply filter_In. split; [exact Hclaim|]. now apply Z.ltb_lt.
  - intros Hd.
    destruct (past_events_spec (now 1%nat) (userId u) st') as [Hperm _].
    apply (Permutation_in _ (Permutation_sym Hperm)).
    apply (in_map past_row _ (e, r, vr)).
    apply filter_In. split; [exact Hclaim|]. now apply Z.leb_le.
Qed.

Lemma signup_shows_in_profile_witness :
  exists upcoming past totalEvents totalHours,
    volunteerProfile accepting (fun _ => 50) vol5 claimed_db =
      (json 200 (ProfileBody upcoming past totalEvents totalHours), claimed_db) /\
    In {| pr_event := new_event org7 (fair (Some [setup2])) empty_db;
          pr_role_name := "Setup"; pr_role_id := Some 1;
          pr_attended := false |} upcoming.
Proof.
  destruct (signup_shows_in_profile accepting accepting (fun _ => 50) vol5 1
              (new_event org7 (fair (Some [setup2])) empty_db)
              (role_of_body 1 1 setup2) fair_db)
    as (_ & upcoming & past & n & h & Hrun & Hup & _).
  - reflexivity.
  - apply accepted_accepting.
  - apply accepted_accepting.
  - reflexivity.
  - simpl. tauto.
  - simpl. tauto.
  - reflexivity.
  - reflexivity.
  - exists upcoming, past, n, h. split; [exact Hrun|].
    apply Hup. simpl. lia.
Defined.

Lemma attended_count_positive row rows :
  In row rows -> pr_attended row = true ->
  (1 <= List.length (filter pr_attended rows))%nat.
Proof.
  intros Hin Hatt.
  assert (Hf : In row (filter pr_attended rows)) by (apply filter_In; tauto).
  destruct (filter pr_attended rows); [contradiction | simpl; lia].
Qed.

(** X20.  Marked attendance counts.  In a store with unique keys, after the
    organizer of an event has marked a claim on one of its roles attended
    (200), the profile of the claim's volunteer, asked at an instant at or
    after the event's date, carries the event under [past] with the attended
    flag true, [totalEvents] is at least 1 and [totalHours] is three times
    [totalEvents]. *)
Theorem marked_attendance_counts rej rej' now u v vr r e st :
  accepted rej 0 2 -> accepted rej' 0 2 ->
  keys_unique st ->
  userType v = "volunteer" ->
  In vr (volunteer_roles st) -> vr_volunteer_id vr = userId v ->
  In r (roles st) -> r_id r = vr_role_id vr ->
  In e (events st) -> e_id e = r_event_id r ->
  e_organizer_id e = userId u ->
  e_date e <= now 1%nat ->
  let st' := snd (setAttendance rej u (vr_id vr) true st) in
  fst (setAttendance rej u (vr_id vr) true st) = attendance_updated /\
  exists upcoming past totalEvents totalHours,
    volunteerProfile rej' now v st' =
      (json 200 (ProfileBody upcoming past totalEvents totalHours), st') /\
    In {| pr_event := e; pr_role_name := r_name r; pr_role_id := None;
          pr_attended := true |} past /\
    (1 <= totalEvents)%nat /\
    totalHours = (totalEvents * 3)%nat.
Proof.
  intros Hacc Hacc' Hkeys Hv Hvr Hvol Hr Hrid He Heid Horg Hd. cbv zeta.
  assert (Hown : organizer_of_record st (vr_id vr) (userId u)).
  { exists vr, r, e. repeat split; assumption. }
  rewrite (setAttendance_updates rej u (vr_id vr) true st [] Hacc
             (record_check_chain st (vr_id vr) (userId u) Hkeys Hown)).
  cbn [fst snd]. split; [reflexivity|].
  set (st' := snd (update_attended true (vr_id vr) st)).
  assert (Hclaim : In (e, r, set_attended true vr) (claims_of (userId v) st')).
  { apply in_claims_of. subst st'. simpl.
    repeat split; try assumption; try congruence.
    apply in_map_iff. exists vr. split; [|assumption].
    now rewrite Z.eqb_refl. }
  assert (Hpast : In (past_row (e, r, set_attended true vr))
                     (past_events (now 1%nat) (userId v) st')).
  { destruct (past_events_spec (now 1%nat) (userId v) st') as [Hperm _].
    apply (Permutation_in _ (Permutation_sym Hperm)).
    apply in_map. apply filter_In. split; [exact Hclaim|].
    now apply Z.leb_le. }
  rewrite (volunteerProfile_accepted rej' now v st' Hv Hacc').
  do 4 eexists. split; [reflexivity|]. split; [exact Hpast|]. split.
  - apply (attended_count_positive _ _ Hpast). reflexivity.
  - reflexivity.
Qed.

Lemma marked_attendance_counts_witness :
  exists upcoming past totalEvents totalHours,
    volunteerProfile accepting (fun _ => 200) vol5 attended_db =
      (json 200 (ProfileBody upcoming past totalEvents totalHours),
       attended_db) /\
    (1 <= totalEvents)%nat /\
    totalHours = (totalEvents * 3)%nat.
Proof.
  destruct (marked_attendance_counts accepting accepting (fun _ => 200)
              org7 vol5 (claim_row 1 5 1) (role_of_body 1 1 setup2)
              (new_event org7 (fair (Some [setup2])) empty_db) claimed_db)
    as (_ & upcoming & past & n & h & Hrun & _ & Hn & Hh).
  - apply accepted_accepting.
  - apply accepted_accepting.
  - exact claimed_db_keys.
  - reflexivity.
  - simpl. tauto.
  - reflexivity.
  - simpl. tauto.
  - reflexivity.
  - simpl. tauto.
  - reflexivity.
  - reflexivity.
  - simpl. lia.
  - exists upcoming, past, n, h. split; [exact Hrun|]. split; assumption.
Defined.

(** ** What an attendance update leaves of the profile *)

Lemma filter_map_same {A} (p : A -> bool) (g : A -> A) l :
  (forall a, p (g a) = p a) -> filter p (map g l) = map g (filter p l).
Proof.
  intros Hp. induction l as [|a l IH]; simpl; [reflexivity|].
  rewrite Hp. destruct (p a); simpl; now rewrite IH.
Qed.

Lemma join_map_right {A B} (on : A -> B -> bool) (f : B -> B) l r :
  (forall a b, on a (f b) = on a b) ->
  join on l (map f r) = map (fun t => (fst t, f (snd t))) (join on l r).
Proof.
  intros Hon. unfold join. induction l as [|a l IH]; simpl; [reflexivity|].
  rewrite map_app, IH, map_map. simpl.
  rewrite (filter_map_same (on a) f r (Hon a)), map_map. reflexivity.
Qed.

Lemma place_map {A} (le : A -> A -> bool) (g : A -> A) x l :
  (forall a b, le (g a) (g b) = le a b) ->
  place le (g x) (map g l) = map g (place le x l).
Proof.
  intros Hle. induction l as [|y l IH]; simpl; [reflexivity|].
  rewrite Hle. destruct (le x y); simpl; [reflexivity | now rewrite IH].
Qed.

Lemma order_by_map {A} (le : A -> A -> bool) (g : A -> A) l :
  (forall a b, le (g a) (g b) = le a b) ->
  order_by le (map g l) = map g (order_by le l).
Proof.
  intros Hle. induction l as [|x l IH]; simpl; [reflexivity|].
  now rewrite IH, place_map.
Qed.

Lemma setAttendance_store rej u recordId attended st :
  snd (setAttendance rej u recordId attended st) = st \/
  snd (setAttendance rej u recordId attended st) =
    snd (update_attended attended recordId st).
Proof.
  unfold setAttendance, setAttendance_try, bind, query, select.
  destruct (rej 0%nat); [now left|]. simpl.
  destruct (record_check recordId st) as [|o rest]; [now left|].
  destruct (negb (o =? userId u)); [now left|].
  destruct (rej 1%nat); [now left | now right].
Qed.

(** In the model the update rewrites the row where it stands, so the two
    queries give the same entries in the same order. *)
Lemma profile_entries_after_update attended recordId now vid st :
  let st' := snd (update_attended attended recordId st) in
  let entry (row : profile_row) :=
    (pr_event row, pr_role_name row, pr_role_id row) in
  map entry (upcoming_events now vid st') =
    map entry (upcoming_events now vid st) /\
  map entry (past_events now vid st') = map entry (past_events now vid st).
Proof.
  cbv zeta.
  set (f := fun vr => if vr_id vr =? recordId
                      then set_attended attended vr else vr).
  set (g := fun t : assignment => (fst t, f (snd t))).
  assert (Hrole : forall vr, vr_role_id (f vr) = vr_role_id vr).
  { intros vr. unfold f. now destruct (vr_id vr =? recordId). }
  assert (Hvol : forall vr, vr_volunteer_id (f vr) = vr_volunteer_id vr).
  { intros vr. unfold f. now destruct (vr_id vr =? recordId). }
  assert (Hjoin : events_roles_claims (snd (update_attended attended recordId st))
                  = map g (events_roles_claims st)).
  { unfold events_roles_claims. simpl.
    apply (join_map_right _ f). intros a b. now rewrite Hrole. }
  unfold upcoming_events, past_events. rewrite Hjoin. split.
  - rewrite filter_map_same.
    2:{ intros t. unfold a_claim, a_event, g. simpl. now rewrite Hvol. }
    rewrite order_by_map by reflexivity.
    rewrite !map_map. apply map_ext. intros t.
    unfold upcoming_row, a_claim, a_event, a_role, g. simpl.
    now rewrite Hrole.
  - rewrite filter_map_same.
    2:{ intros t. unfold a_claim, a_event, g. simpl. now rewrite Hvol. }
    rewrite order_by_map by reflexivity.
    rewrite !map_map. apply map_ext. intros t. reflexivity.
Qed.

(** X21.  An attendance update adds nothing to a profile and removes
    nothing from it.  Whatever the caller, the record and the statements
    rejected, the upcoming and the past rows of every volunteer, asked at
    the same instants before and after a [setAttendance], name the same
    events with the same role names and role ids, each as many times: only
    attended flags, and the order among rows of one date, can differ. *)
Theorem setAttendance_keeps_profile_entries rej u recordId attended now vid st :
  let st' := snd (setAttendance rej u recordId attended st) in
  let entry (row : profile_row) :=
    (pr_event row, pr_role_name row, pr_role_id row) in
  Permutation (map entry (upcoming_events now vid st'))
              (map entry (upcoming_events now vid st)) /\
  Permutation (map entry (past_events now vid st'))
              (map entry (past_events now vid st)).
Proof.
  cbv zeta.
  destruct (setAttendance_store rej u recordId attended st) as [-> | ->];
    [now split|].
  destruct (profile_entries_after_update attended recordId now vid st)
    as [Hup Hpast].
  cbv zeta in Hup, Hpast. rewrite Hup, Hpast. now split.
Qed.
